(** * Fabric Network Constructor: the dashboard's topology operations

    A shallow embedding of the state handlers of
    [src/components/NetworkDashboard.tsx] (applyTemplate, addOrganization,
    updateOrganization, addPeer, addOrderer, generateConfigs,
    checkConfiguration) together with the properties the specification
    states about them.

    Conventions of the embedding:
    - a JavaScript string is a [string]; each [ascii] stands for one code
      unit in the range 0..255 (Latin-1), on which [\s], [trim] and
      [toLowerCase] are modelled exactly;
    - a JavaScript number holding a port, a count or a byte size is a [Z];
    - React state is one record [State]; a handler is a function on it.
      [setConfig(value)] overwrites the [config] field,
      [setConfig(prev => ...)] rewrites it from its current value;
    - [crypto.randomUUID()] draws from a sequence [uuid : nat -> string];
      the number of draws made so far is threaded through the handlers
      that mint identities (the [Gen] monad);
    - the timer that clears a notification after three seconds is not
      modelled: [notification] holds the last notification shown. *)

From Stdlib Require Import String Ascii List ZArith NArith Arith Bool Lia.
From Stdlib Require Import DecimalString DecimalNat.
Import ListNotations.

Local Open Scope string_scope.
Local Open Scope list_scope.
Local Open Scope Z_scope.

(* ------------------------------------------------------------------ *)
(** ** JavaScript strings *)

Module JS.

(** The code units matched by [\s] and removed by [trim]: TAB, LF, VT, FF,
    CR, SPACE and NO-BREAK SPACE (the members of WhiteSpace and
    LineTerminator below U+0100). *)
Definition isWhiteSpace (c : ascii) : bool :=
  let n := N_of_ascii c in
  (((9 <=? n) && (n <=? 13)) || (n =? 32) || (n =? 160))%N.

(** [s.replace(/\s+/g, '')]: every maximal run of white space is replaced
    by the empty string, which leaves the code units that are not white
    space, in order. *)
Fixpoint stripSpaces (s : string) : string :=
  match s with
  | EmptyString => EmptyString
  | String c s' =>
      if isWhiteSpace c then stripSpaces s' else String c (stripSpaces s')
  end.

Fixpoint trimStart (s : string) : string :=
  match s with
  | EmptyString => EmptyString
  | String c s' => if isWhiteSpace c then trimStart s' else s
  end.

Fixpoint trimEnd (s : string) : string :=
  match s with
  | EmptyString => EmptyString
  | String c s' =>
      match trimEnd s' with
      | EmptyString => if isWhiteSpace c then EmptyString else String c EmptyString
      | r => String c r
      end
  end.

(** [s.trim()] *)
Definition trim (s : string) : string := trimEnd (trimStart s).

(** Lower-casing of one code unit: A-Z and the Latin-1 capitals
    U+00C0..U+00DE (the multiplication sign U+00D7 apart) move up by 32. *)
Definition lowerUnit (c : ascii) : ascii :=
  let n := N_of_ascii c in
  if (((65 <=? n) && (n <=? 90)) ||
      ((192 <=? n) && (n <=? 222) && negb (n =? 215)))%N
  then ascii_of_N (n + 32) else c.

(** [s.toLowerCase()] *)
Fixpoint toLowerCase (s : string) : string :=
  match s with
  | EmptyString => EmptyString
  | String c s' => String (lowerUnit c) (toLowerCase s')
  end.

(** [0-9A-Za-z] *)
Definition isAlphaNum (c : ascii) : bool :=
  let n := N_of_ascii c in
  (((48 <=? n) && (n <=? 57)) || ((65 <=? n) && (n <=? 90)) ||
   ((97 <=? n) && (n <=? 122)))%N.

Fixpoint forallb_str (p : ascii -> bool) (s : string) : bool :=
  match s with
  | EmptyString => true
  | String c s' => p c && forallb_str p s'
  end.

(** Empty or made of white space only. *)
Definition allWhiteSpace (s : string) : bool := forallb_str isWhiteSpace s.

(** The decimal rendering of an array index inside a template literal. *)
Definition ofIndex (i : nat) : string := NilEmpty.string_of_uint (Nat.to_uint i).

(** JavaScript truthiness of a string: only the empty string is falsy. *)
Definition truthy (s : string) : bool :=
  match s with EmptyString => false | _ => true end.

End JS.

(* ------------------------------------------------------------------ *)
(** ** Data model *)

(** The declarations of [../types] are not among the sources: the records
    below carry the fields the handlers read and write, with the value
    sets section 3 of the specification gives them. *)

Inductive Status := pending | running | stopped | error.
Inductive OrgType := peerOrg | ordererOrg.
Inductive ConsensusType := solo | etcdraft.
Inductive StateDatabase := CouchDB | LevelDB.

Record Peer := mkPeer {
  peer_id : string;
  peer_name : string;
  port : Z;
  peer_status : Status;
  couchDBPort : Z;
  chaincodePort : Z
}.

Record Organization := mkOrganization {
  org_id : string;
  org_name : string;
  domain : string;
  mspID : string;
  peers : list Peer;
  org_type : option OrgType;
  country : string;
  state : string;
  locality : string
}.

Record BatchSize := mkBatchSize {
  maxMessageCount : Z;
  absoluteMaxBytes : Z;
  preferredMaxBytes : Z
}.

Record Orderer := mkOrderer {
  orderer_id : string;
  orderer_name : string;
  orderer_domain : string;
  orderer_port : Z;
  orderer_status : Status;
  orderer_type : ConsensusType;
  batchTimeout : string;
  batchSize : BatchSize
}.

(** One entry of a preset's organization list. *)
Record TemplateOrg := mkTemplateOrg {
  t_name : string;
  peerCount : Z;
  t_type : OrgType
}.

Record NetworkTemplate := mkNetworkTemplate {
  template_id : string;
  template_name : string;
  description : string;
  t_organizations : list TemplateOrg;
  ordererCount : Z;
  t_channelName : string;
  t_stateDatabase : StateDatabase
}.

Record NetworkConfig := mkNetworkConfig {
  organizations : list Organization;
  orderers : list Orderer;
  channelName : string;
  consortium : string;
  networkVersion : string;
  template : option NetworkTemplate;
  stateDatabase : StateDatabase
}.

(** The three generated documents. *)
Record YAMLConfig := mkYAMLConfig {
  configtx : string;
  cryptoConfig : string;
  dockerCompose : string
}.

(** What [generateYAMLConfigs] throws instead of returning documents. *)
Inductive Thrown := MalformedTopology.

Inductive Severity := sev_error | sev_warning | sev_info.

Record ValidationResult := mkValidationResult {
  status : Severity;
  message : string;
  fix_text : option string
}.

(** [result.status === 'error'] and [result.status === 'warning'] *)
Definition isError (r : ValidationResult) : bool :=
  match status r with sev_error => true | _ => false end.

Definition isWarning (r : ValidationResult) : bool :=
  match status r with sev_warning => true | _ => false end.

(** [Partial<Organization>]: the properties an update carries. *)
Record OrganizationUpdates := mkOrganizationUpdates {
  u_id : option string;
  u_name : option string;
  u_domain : option string;
  u_mspID : option string;
  u_peers : option (list Peer);
  u_type : option OrgType;
  u_country : option string;
  u_state : option string;
  u_locality : option string
}.

(** The second argument of [showNotification]. Its parameter is declared
    as ['success' | 'error'], and [checkConfiguration] also passes
    ['warning']. *)
Inductive NotificationType := n_success | n_error | n_warning.

Record Notification := mkNotification {
  n_message : string;
  n_type : NotificationType
}.

(** The component's state (the [React.useState] cells). *)
Record State := mkState {
  config : NetworkConfig;
  editingOrg : option string;
  editingPeer : option (string * string);
  editingOrderer : option string;
  newOrgName : string;
  yamlPreview : option YAMLConfig;
  notification : option Notification;
  selectedTemplate : option NetworkTemplate;
  validationResults : list ValidationResult;
  showValidation : bool
}.

(** The initial state of the component. *)
Definition initialState : State :=
  mkState (mkNetworkConfig [] [] "" "SampleConsortium" "2.0" None CouchDB)
          None None None "" None None None [] false.

(* ------------------------------------------------------------------ *)
(** ** Validator, from its specification *)

(** Modelled from the spec: the module [utils/networkValidator] is not
    among the sources. The definitions of [Validator] follow section 4.1
    of the specification, one definition per rule class. *)
Module Validator.

Import JS.

(** One bound port of the topology: who binds it, which of the four kinds
    it is, and its number. *)
Record PortSlot := mkPortSlot {
  slot_owner : string;
  slot_kind : string;
  slot_port : Z
}.

Definition peerSlots (o : Organization) (p : Peer) : list PortSlot :=
  let owner := (peer_name p ++ "." ++ domain o)%string in
  [ mkPortSlot owner "peer" (port p);
    mkPortSlot owner "CouchDB" (couchDBPort p);
    mkPortSlot owner "chaincode" (chaincodePort p) ].

Definition ordererSlot (o : Orderer) : PortSlot :=
  mkPortSlot (orderer_name o ++ "." ++ orderer_domain o) "orderer" (orderer_port o).

(** The single port namespace: every peer's three ports, organization by
    organization, then every orderer's port. *)
Definition portSlots (c : NetworkConfig) : list PortSlot :=
  flat_map (fun o => flat_map (peerSlots o) (peers o)) (organizations c)
  ++ map ordererSlot (orderers c).

(** All pairs of positions i < j of a sequence, in lexicographic order. *)
Fixpoint pairs {A : Type} (l : list A) : list (A * A) :=
  match l with
  | [] => []
  | a :: l' => map (pair a) l' ++ pairs l'
  end.

Definition showPort (z : Z) : string := NilEmpty.string_of_int (Z.to_int z).

Definition finding (sev : Severity) (msg : string) (f : option string)
  : ValidationResult := mkValidationResult sev msg f.

(** Rule class 1, emptiness. *)
Definition emptinessRule (c : NetworkConfig) : list ValidationResult :=
  (match organizations c with
   | [] => [finding sev_error "at least one organization required" None]
   | _ => []
   end)
  ++ (match orderers c with
      | [] => [finding sev_error "at least one orderer required" None]
      | _ => []
      end)
  ++ flat_map (fun o =>
       match peers o with
       | [] => [finding sev_warning
                  ("organization " ++ org_name o ++ " has no peers") None]
       | _ => []
       end) (organizations c).

(** Rule class 2, first half: one error per pair of organizations with the
    same mspID, naming both. *)
Definition mspRule (c : NetworkConfig) : list ValidationResult :=
  flat_map (fun ab : Organization * Organization =>
    let (a, b) := ab in
    if (mspID a =? mspID b)%string
    then [finding sev_error
            ("organizations " ++ org_name a ++ " (" ++ org_id a ++ ") and "
             ++ org_name b ++ " (" ++ org_id b ++ ") share the mspID "
             ++ mspID a)
            (Some "rename one organization or set an explicit mspID")]
    else []) (pairs (organizations c)).

(** Rule class 2, second half: one error per pair of bound ports with the
    same number, naming the two owners and the port. *)
Definition portRule (c : NetworkConfig) : list ValidationResult :=
  flat_map (fun ab : PortSlot * PortSlot =>
    let (a, b) := ab in
    if slot_port a =? slot_port b
    then [finding sev_error
            ("port " ++ showPort (slot_port a) ++ " is bound as "
             ++ slot_kind a ++ " port of " ++ slot_owner a ++ " and as "
             ++ slot_kind b ++ " port of " ++ slot_owner b) None]
    else []) (pairs (portSlots c)).

Definition isEtcdraft (o : Orderer) : bool :=
  match orderer_type o with etcdraft => true | solo => false end.

Definition isSolo (o : Orderer) : bool := negb (isEtcdraft o).

(** Rule class 3, consensus sanity. *)
Definition consensusRule (c : NetworkConfig) : list ValidationResult :=
  let n := length (orderers c) in
  (if existsb isEtcdraft (orderers c) && Nat.even n
   then [finding sev_warning
           "even orderer count cannot tolerate an equal split; prefer an odd count"
           (Some ("use " ++ ofIndex (S n) ++ " orderers")%string)]
   else [])
  ++ (if existsb isSolo (orderers c) && (1 <? n)%nat
      then [finding sev_warning "solo mode ignores all but the first orderer" None]
      else []).

(** Rule class 4, batch-size sanity, orderer by orderer. *)
Definition batchRule (c : NetworkConfig) : list ValidationResult :=
  flat_map (fun o =>
    let b := batchSize o in
    (if absoluteMaxBytes b <? preferredMaxBytes b
     then [finding sev_error
             ("orderer " ++ orderer_name o ++ ": preferredMaxBytes exceeds absoluteMaxBytes")
             (Some "preferred max must not exceed absolute max")]
     else [])
    ++ (if maxMessageCount b <=? 0
        then [finding sev_error
                ("orderer " ++ orderer_name o ++ ": maxMessageCount must be positive") None]
        else [])) (orderers c).

(** [a-z0-9-] *)
Definition isLabelChar (c : ascii) : bool :=
  let n := N_of_ascii c in
  (((97 <=? n) && (n <=? 122)) || ((48 <=? n) && (n <=? 57)) || (n =? 45))%N.

(** Non-empty and, once case-folded, made of [a-z0-9-] only. *)
Definition labelSafe (s : string) : bool :=
  truthy s && forallb_str isLabelChar (toLowerCase s).

Fixpoint keepLabelChars (s : string) : string :=
  match s with
  | EmptyString => EmptyString
  | String c s' =>
      if isLabelChar c then String c (keepLabelChars s') else keepLabelChars s'
  end.

Definition normalized (s : string) : string := keepLabelChars (toLowerCase s).

(** Rule class 5, naming sanity: channel name, then consortium name. *)
Definition namingRule (c : NetworkConfig) : list ValidationResult :=
  (if labelSafe (channelName c) then []
   else [finding sev_warning "channel name is empty or not DNS-label-safe"
           (Some ("use " ++ normalized (channelName c))%string)])
  ++ (if labelSafe (consortium c) then []
      else [finding sev_warning "consortium name is empty or not DNS-label-safe"
              (Some ("use " ++ normalized (consortium c))%string)]).

(** Modelled from the spec: [validateNetworkConfig] of
    [utils/networkValidator], which the dashboard imports, is not among
    the sources. Section 4.1 of the specification gives its contract: five
    independent rule classes, all evaluated, reported in rule order. The
    wording of a message is fixed only where the specification quotes it. *)
Definition validateNetworkConfig (c : NetworkConfig) : list ValidationResult :=
  emptinessRule c ++ mspRule c ++ portRule c ++ consensusRule c
  ++ batchRule c ++ namingRule c.

Definition errors (rs : list ValidationResult) := filter isError rs.
Definition warnings (rs : list ValidationResult) := filter isWarning rs.

End Validator.

(* ------------------------------------------------------------------ *)
(** ** Minting identities *)

(** A computation that may call [crypto.randomUUID()]: it receives the
    number of identities drawn so far and returns the new count. *)
Definition Gen (A : Type) : Type := nat -> A * nat.

Definition ret {A : Type} (a : A) : Gen A := fun k => (a, k).

Definition bind {A B : Type} (m : Gen A) (f : A -> Gen B) : Gen B :=
  fun k => let (a, k') := m k in f a k'.

Notation "x <- m ;; f" := (bind m (fun x => f))
  (at level 61, m at next level, right associativity).

(** [l.map(f)] where [f] mints identities: elements are visited in order. *)
Fixpoint mapM {A B : Type} (f : A -> Gen B) (l : list A) : Gen (list B) :=
  match l with
  | [] => ret []
  | a :: l' => b <- f a ;; bs <- mapM f l' ;; ret (b :: bs)
  end.

(** The [n] elements of index [i], [i+1], ... produced by [f]. *)
Fixpoint arrayFromAt {B : Type} (f : nat -> Gen B) (i n : nat) : Gen (list B) :=
  match n with
  | O => ret []
  | S n' => b <- f i ;; bs <- arrayFromAt f (S i) n' ;; ret (b :: bs)
  end.

(** [Array.from({ length }, (_, i) => f i)]. A negative length counts as
    zero ([Z.to_nat]), as ToLength has it. *)
Definition arrayFrom {B : Type} (length : Z) (f : nat -> Gen B) : Gen (list B) :=
  arrayFromAt f 0 (Z.to_nat length).

(* ------------------------------------------------------------------ *)
(** ** State updates *)

Definition setConfig (c : NetworkConfig) (s : State) : State :=
  mkState c (editingOrg s) (editingPeer s) (editingOrderer s) (newOrgName s)
          (yamlPreview s) (notification s) (selectedTemplate s)
          (validationResults s) (showValidation s).

(** [setConfig(prev => f prev)] *)
Definition updateConfig (f : NetworkConfig -> NetworkConfig) (s : State) : State :=
  setConfig (f (config s)) s.

Definition setNewOrgName (n : string) (s : State) : State :=
  mkState (config s) (editingOrg s) (editingPeer s) (editingOrderer s) n
          (yamlPreview s) (notification s) (selectedTemplate s)
          (validationResults s) (showValidation s).

Definition setYamlPreview (y : option YAMLConfig) (s : State) : State :=
  mkState (config s) (editingOrg s) (editingPeer s) (editingOrderer s)
          (newOrgName s) y (notification s) (selectedTemplate s)
          (validationResults s) (showValidation s).

Definition setNotification (n : option Notification) (s : State) : State :=
  mkState (config s) (editingOrg s) (editingPeer s) (editingOrderer s)
          (newOrgName s) (yamlPreview s) n (selectedTemplate s)
          (validationResults s) (showValidation s).

Definition setSelectedTemplate (t : option NetworkTemplate) (s : State) : State :=
  mkState (config s) (editingOrg s) (editingPeer s) (editingOrderer s)
          (newOrgName s) (yamlPreview s) (notification s) t
          (validationResults s) (showValidation s).

Definition setValidationResults (r : list ValidationResult) (s : State) : State :=
  mkState (config s) (editingOrg s) (editingPeer s) (editingOrderer s)
          (newOrgName s) (yamlPreview s) (notification s) (selectedTemplate s)
          r (showValidation s).

Definition setShowValidation (b : bool) (s : State) : State :=
  mkState (config s) (editingOrg s) (editingPeer s) (editingOrderer s)
          (newOrgName s) (yamlPreview s) (notification s) (selectedTemplate s)
          (validationResults s) b.

Definition showNotification (msg : string) (type : NotificationType) (s : State)
  : State := setNotification (Some (mkNotification msg type)) s.

(** [{ ...prev, organizations }] *)
Definition withOrganizations (os : list Organization) (prev : NetworkConfig)
  : NetworkConfig :=
  mkNetworkConfig os (orderers prev) (channelName prev) (consortium prev)
                  (networkVersion prev) (template prev) (stateDatabase prev).

(** [{ ...prev, orderers }] *)
Definition withOrderers (os : list Orderer) (prev : NetworkConfig)
  : NetworkConfig :=
  mkNetworkConfig (organizations prev) os (channelName prev) (consortium prev)
                  (networkVersion prev) (template prev) (stateDatabase prev).

(** [{ ...o, peers }] *)
Definition withPeers (ps : list Peer) (o : Organization) : Organization :=
  mkOrganization (org_id o) (org_name o) (domain o) (mspID o) ps (org_type o)
                 (country o) (state o) (locality o).

Definition override {A : Type} (old : A) (new : option A) : A :=
  match new with Some v => v | None => old end.

(** [{ ...org, ...updates }]: a property of [updates] replaces the
    organization's. *)
Definition mergeOrganization (org : Organization) (updates : OrganizationUpdates)
  : Organization :=
  mkOrganization
    (override (org_id org) (u_id updates))
    (override (org_name org) (u_name updates))
    (override (domain org) (u_domain updates))
    (override (mspID org) (u_mspID updates))
    (override (peers org) (u_peers updates))
    (match u_type updates with Some t => Some t | None => org_type org end)
    (override (country org) (u_country updates))
    (override (state org) (u_state updates))
    (override (locality org) (u_locality updates)).

(* ------------------------------------------------------------------ *)
(** ** The handlers of NetworkDashboard *)

Section Dashboard.

Import JS.

(** The successive results of [crypto.randomUUID()]. *)
Variable uuid : nat -> string.

(** [generateYAMLConfigs] of [utils/yamlGenerator]: it returns the three
    documents or throws. *)
Variable generateYAMLConfigs : NetworkConfig -> Thrown + YAMLConfig.

(** [validateNetworkConfig] of [utils/networkValidator]. *)
Variable validateNetworkConfig : NetworkConfig -> list ValidationResult.

Definition randomUUID : Gen string := fun k => (uuid k, S k).

(** The peer literal of [applyTemplate] and of [addPeer], at index [i]. *)
Definition newPeer (i : nat) : Gen Peer :=
  id <- randomUUID ;;
  ret (mkPeer id ("peer" ++ ofIndex i) (7051 + Z.of_nat i) pending
              (5984 + Z.of_nat i) (7052 + Z.of_nat i)).

(** The orderer literal of [applyTemplate] and of [addOrderer], at index [i]. *)
Definition newOrderer (i : nat) : Gen Orderer :=
  id <- randomUUID ;;
  ret (mkOrderer id ("orderer" ++ ofIndex i) "orderer.example.com"
                 (7050 + Z.of_nat i) pending etcdraft "2s"
                 (mkBatchSize 500 10485760 2097152)).

(** The callback of [template.organizations.map] in [applyTemplate]. *)
Definition templateOrganization (org : TemplateOrg) : Gen Organization :=
  id <- randomUUID ;;
  ps <- arrayFrom (peerCount org) newPeer ;;
  ret (mkOrganization id (t_name org)
         (stripSpaces (toLowerCase (t_name org)) ++ ".example.com")
         (stripSpaces (t_name org) ++ "MSP")
         ps (Some (t_type org)) "US" "California" "San Francisco").

Definition applyTemplate (template : NetworkTemplate) (s : State) : Gen State :=
  let s1 := setSelectedTemplate (Some template) s in
  newOrgs <- mapM templateOrganization (t_organizations template) ;;
  newOrderers <- arrayFrom (ordererCount template) newOrderer ;;
  ret (showNotification
         ("Applied " ++ template_name template ++ " template successfully")
         n_success
         (setConfig
            (mkNetworkConfig newOrgs newOrderers (t_channelName template)
               "SampleConsortium" "2.0" (Some template)
               (t_stateDatabase template))
            s1)).

Definition addOrganization (s : State) : Gen State :=
  if negb (truthy (trim (newOrgName s)))
  then ret (showNotification "Organization name is required" n_error s)
  else
    id <- randomUUID ;;
    let newOrg :=
      mkOrganization id (trim (newOrgName s))
        (stripSpaces (toLowerCase (newOrgName s)) ++ ".example.com")
        (stripSpaces (newOrgName s) ++ "MSP")
        [] None "US" "California" "San Francisco" in
    ret (showNotification
           ("Organization " ++ org_name newOrg ++ " added successfully")
           n_success
           (setNewOrgName ""
              (updateConfig
                 (fun prev =>
                    withOrganizations (organizations prev ++ [newOrg]) prev)
                 s))).

Definition updateOrganization (orgId : string) (updates : OrganizationUpdates)
                              (s : State) : State :=
  showNotification "Organization updated successfully" n_success
    (updateConfig
       (fun prev =>
          withOrganizations
            (map (fun org =>
                    if (org_id org =? orgId)%string
                    then mergeOrganization org updates else org)
                 (organizations prev))
            prev)
       s).

Definition addPeer (orgId : string) (s : State) : Gen State :=
  match find (fun o => (org_id o =? orgId)%string) (organizations (config s)) with
  | None => ret s
  | Some org =>
      p <- newPeer (length (peers org)) ;;
      ret (showNotification
             ("Peer " ++ peer_name p ++ " added to " ++ org_name org)
             n_success
             (updateConfig
                (fun prev =>
                   withOrganizations
                     (map (fun o =>
                             if (org_id o =? orgId)%string
                             then withPeers (peers o ++ [p]) o else o)
                          (organizations prev))
                     prev)
                s))
  end.

Definition addOrderer (s : State) : Gen State :=
  o <- newOrderer (length (orderers (config s))) ;;
  ret (showNotification
         ("Orderer " ++ orderer_name o ++ " added successfully") n_success
         (updateConfig (fun prev => withOrderers (orderers prev ++ [o]) prev) s)).

(** [generateConfigs] returns a state, or is left by what
    [generateYAMLConfigs] throws, before any state is set. *)
Definition generateConfigs (s : State) : Thrown + State :=
  if (length (organizations (config s)) =? 0)%nat
  then inr (showNotification
              "Add at least one organization before generating configs" n_error s)
  else
    match generateYAMLConfigs (config s) with
    | inl thrown => inl thrown
    | inr configs =>
        inr (showNotification "Configuration files generated successfully"
               n_success (setYamlPreview (Some configs) s))
    end.

Definition checkConfiguration (s : State) : State :=
  let results := validateNetworkConfig (config s) in
  let s1 := setShowValidation true (setValidationResults results s) in
  let hasErrors := existsb isError results in
  if hasErrors
  then showNotification
         "Configuration has critical issues that need to be addressed" n_error s1
  else if (0 <? length results)%nat
  then showNotification
         "Configuration has warnings that should be reviewed" n_warning s1
  else showNotification "Configuration looks good!" n_success s1.

End Dashboard.

(* ------------------------------------------------------------------ *)
(** ** Vocabulary of the properties *)

(** Every port bound in a topology, in one namespace: the three ports of
    each peer, organization by organization, then the orderers' ports. *)
Definition peerPorts (p : Peer) : list Z :=
  [port p; couchDBPort p; chaincodePort p].

Definition allPorts (c : NetworkConfig) : list Z :=
  flat_map (fun o => flat_map peerPorts (peers o)) (organizations c)
  ++ map orderer_port (orderers c).

(** The global port-uniqueness rule. *)
Definition portsUnique (c : NetworkConfig) : Prop := NoDup (allPorts c).

(** The identities of a topology: each organization's, followed by its
    peers', then the orderers'. *)
Definition identities (c : NetworkConfig) : list string :=
  flat_map (fun o => org_id o :: map peer_id (peers o)) (organizations c)
  ++ map orderer_id (orderers c).

(** The overall status as the specification words it: errors if any
    result is an error, otherwise warnings if any is a warning, otherwise
    clean. *)
Definition overallStatus_spec (rs : list ValidationResult) : NotificationType :=
  if existsb isError rs then n_error
  else if existsb isWarning rs then n_warning
  else n_success.

(** The mspID as the specification words it: the name restricted to
    alphanumeric characters, suffixed with MSP. *)
Fixpoint keepAlphaNum (s : string) : string :=
  match s with
  | EmptyString => EmptyString
  | String c s' =>
      if JS.isAlphaNum c then String c (keepAlphaNum s') else keepAlphaNum s'
  end.

Definition mspID_spec (name : string) : string :=
  (keepAlphaNum name ++ "MSP")%string.

(** An organization created without an override: appended by
    [addOrganization], or part of an instantiated preset. *)
Definition createdByDashboard (uuid : nat -> string) (o : Organization) : Prop :=
  (exists s k,
      JS.truthy (JS.trim (newOrgName s)) = true /\
      organizations (config (fst (addOrganization uuid s k)))
      = organizations (config s) ++ [o])
  \/ (exists t s k,
         In o (organizations (config (fst (applyTemplate uuid t s k))))).

(** No code unit of the string is white space. *)
Definition noWhiteSpace (s : string) : bool :=
  JS.forallb_str (fun c => negb (JS.isWhiteSpace c)) s.

(** The status a state reports: the type of its notification. *)
Definition reported (s : State) : option NotificationType :=
  option_map n_type (notification s).

(** Decidable distinctness of a list of ports. *)
Fixpoint distinctb (l : list Z) : bool :=
  match l with
  | [] => true
  | x :: l' => negb (existsb (Z.eqb x) l') && distinctb l'
  end.

(** *** Concrete inputs *)

(** A sequence of identities: uuid-0, uuid-1, ... *)
Definition uuid0 (n : nat) : string := ("uuid-" ++ JS.ofIndex n)%string.

(** Modelled from the spec: [generateYAMLConfigs] of [utils/yamlGenerator]
    is not among the sources. Sections 4.2, 6 and 7 of the specification
    give its failure rule: it fails with MalformedTopology if the
    organizations or the orderers are empty, and only then; otherwise it
    produces the three documents. The text of the documents has no
    specification here: it is the parameter [render]. *)
Definition compile (render : NetworkConfig -> YAMLConfig) (c : NetworkConfig)
  : Thrown + YAMLConfig :=
  match organizations c, orderers c with
  | _ :: _, _ :: _ => inr (render c)
  | _, _ => inl MalformedTopology
  end.

(** A rendering for examples: each document names the channel. *)
Definition sampleRender (c : NetworkConfig) : YAMLConfig :=
  mkYAMLConfig ("configtx: " ++ channelName c)
               ("crypto-config: " ++ channelName c)
               ("docker-compose: " ++ channelName c).

(** The state after a handler that may have thrown: a throw leaves the
    state it started from. *)
Definition settled (s : State) (r : Thrown + State) : State :=
  match r with inl _ => s | inr s' => s' end.

(** A call of [generateConfigs] that produced no documents: it was left by
    a throw, or it reported an error and left the preview as it was. *)
Definition producedNoDocuments (s : State) (r : Thrown + State) : Prop :=
  match r with
  | inl MalformedTopology => True
  | inr s' => reported s' = Some n_error /\ yamlPreview s' = yamlPreview s
  end.

(** No code unit of the string is one of A-Z. *)
Definition noUpperCase (s : string) : bool :=
  JS.forallb_str
    (fun c => negb ((65 <=? N_of_ascii c)%N && (N_of_ascii c <=? 90)%N)) s.

(** Modelled from the spec: the preset catalog [NETWORK_TEMPLATES] of
    [../types] is not among the sources. Section 8 of the specification
    names this preset and fixes its shape: two organizations with two
    peers each and three orderers. The organization names, the channel
    name and the descriptive fields are placeholders. *)
Definition twoOrganizationRaft : NetworkTemplate :=
  mkNetworkTemplate "two-org-raft" "Two-Organization Raft"
    "Two organizations, Raft ordering service"
    [mkTemplateOrg "Org1" 2 peerOrg; mkTemplateOrg "Org2" 2 peerOrg]
    3 "mychannel" CouchDB.

(** A topology built by hand, to apply presets over. *)
Definition legacyConfig : NetworkConfig :=
  mkNetworkConfig
    [mkOrganization "org-a" "Acme" "acme.example.com" "AcmeMSP"
       [mkPeer "peer-a0" "peer0" 7051 running 5984 7052]
       None "US" "California" "San Francisco"]
    [mkOrderer "ord-a" "orderer0" "orderer.example.com" 7050 running solo "2s"
       (mkBatchSize 500 10485760 2097152)]
    "legacy" "SampleConsortium" "2.0" None LevelDB.

Definition legacyState : State := setConfig legacyConfig initialState.

(** A result list with one informational entry. *)
Definition infoOnly : list ValidationResult :=
  [mkValidationResult sev_info "Network has an ordering service" None].

(* ------------------------------------------------------------------ *)
(** ** The remaining handlers of NetworkDashboard *)

(** [Partial<Peer>] *)
Record PeerUpdates := mkPeerUpdates {
  pu_id : option string;
  pu_name : option string;
  pu_port : option Z;
  pu_status : option Status;
  pu_couchDBPort : option Z;
  pu_chaincodePort : option Z
}.

(** [Partial<Orderer>] *)
Record OrdererUpdates := mkOrdererUpdates {
  ou_id : option string;
  ou_name : option string;
  ou_domain : option string;
  ou_port : option Z;
  ou_status : option Status;
  ou_type : option ConsensusType;
  ou_batchTimeout : option string;
  ou_batchSize : option BatchSize
}.

(** [{ ...peer, ...updates }] *)
Definition mergePeer (peer : Peer) (updates : PeerUpdates) : Peer :=
  mkPeer (override (peer_id peer) (pu_id updates))
         (override (peer_name peer) (pu_name updates))
         (override (port peer) (pu_port updates))
         (override (peer_status peer) (pu_status updates))
         (override (couchDBPort peer) (pu_couchDBPort updates))
         (override (chaincodePort peer) (pu_chaincodePort updates)).

(** [{ ...orderer, ...updates }] *)
Definition mergeOrderer (orderer : Orderer) (updates : OrdererUpdates) : Orderer :=
  mkOrderer (override (orderer_id orderer) (ou_id updates))
            (override (orderer_name orderer) (ou_name updates))
            (override (orderer_domain orderer) (ou_domain updates))
            (override (orderer_port orderer) (ou_port updates))
            (override (orderer_status orderer) (ou_status updates))
            (override (orderer_type orderer) (ou_type updates))
            (override (batchTimeout orderer) (ou_batchTimeout updates))
            (override (batchSize orderer) (ou_batchSize updates)).

Definition setEditingOrg (e : option string) (s : State) : State :=
  mkState (config s) e (editingPeer s) (editingOrderer s) (newOrgName s)
          (yamlPreview s) (notification s) (selectedTemplate s)
          (validationResults s) (showValidation s).

Definition setEditingPeer (e : option (string * string)) (s : State) : State :=
  mkState (config s) (editingOrg s) e (editingOrderer s) (newOrgName s)
          (yamlPreview s) (notification s) (selectedTemplate s)
          (validationResults s) (showValidation s).

Definition setEditingOrderer (e : option string) (s : State) : State :=
  mkState (config s) (editingOrg s) (editingPeer s) e (newOrgName s)
          (yamlPreview s) (notification s) (selectedTemplate s)
          (validationResults s) (showValidation s).

(** The [switch] of [handleNodeClick] has no default: an unknown type
    leaves the state as it is. *)
Definition handleNodeClick (nodeId : string) (type : string) (s : State) : State :=
  if (type =? "org")%string then setEditingOrg (Some nodeId) s
  else if (type =? "orderer")%string then setEditingOrderer (Some nodeId) s
  else if (type =? "peer")%string then
    match find (fun o => existsb (fun p => (peer_id p =? nodeId)%string) (peers o))
               (organizations (config s)) with
    | Some org => setEditingPeer (Some (org_id org, nodeId)) s
    | None => s
    end
  else s.

Definition deleteOrganization (orgId : string) (s : State) : State :=
  showNotification "Organization deleted successfully" n_success
    (updateConfig
       (fun prev =>
          withOrganizations
            (filter (fun org => negb (org_id org =? orgId)%string)
                    (organizations prev))
            prev)
       s).

Definition updatePeer (orgId peerId : string) (updates : PeerUpdates) (s : State)
  : State :=
  showNotification "Peer updated successfully" n_success
    (setEditingPeer None
       (updateConfig
          (fun prev =>
             withOrganizations
               (map (fun org =>
                       if (org_id org =? orgId)%string
                       then withPeers
                              (map (fun peer =>
                                      if (peer_id peer =? peerId)%string
                                      then mergePeer peer updates else peer)
                                   (peers org))
                              org
                       else org)
                    (organizations prev))
               prev)
          s)).

Definition deletePeer (orgId peerId : string) (s : State) : State :=
  showNotification "Peer deleted successfully" n_success
    (updateConfig
       (fun prev =>
          withOrganizations
            (map (fun org =>
                    if (org_id org =? orgId)%string
                    then withPeers
                           (filter (fun peer => negb (peer_id peer =? peerId)%string)
                                   (peers org))
                           org
                    else org)
                 (organizations prev))
            prev)
       s).

Definition updateOrderer (ordererId : string) (updates : OrdererUpdates) (s : State)
  : State :=
  showNotification "Orderer updated successfully" n_success
    (setEditingOrderer None
       (updateConfig
          (fun prev =>
             withOrderers
               (map (fun orderer =>
                       if (orderer_id orderer =? ordererId)%string
                       then mergeOrderer orderer updates else orderer)
                    (orderers prev))
               prev)
          s)).

Definition deleteOrderer (ordererId : string) (s : State) : State :=
  showNotification "Orderer deleted successfully" n_success
    (updateConfig
       (fun prev =>
          withOrderers
            (filter (fun orderer => negb (orderer_id orderer =? ordererId)%string)
                    (orderers prev))
            prev)
       s).

(** [n] successive calls of [addOrderer]. *)
Fixpoint addOrderers (uuid : nat -> string) (n : nat) (s : State) : Gen State :=
  match n with
  | O => ret s
  | S n' => s1 <- addOrderer uuid s ;; addOrderers uuid n' s1
  end.

(* ------------------------------------------------------------------ *)
(** ** NetworkVisualizer: the diagram of a topology *)

Module NetworkVisualizer.

(** A diagram node: its id, position, and the label, details and class
    name of its data. Every node has type [custom]; the icon element is
    not modelled. *)
Record Node := mkNode {
  node_id : string;
  x : Z;
  y : Z;
  label : string;
  details : string;
  className : string
}.

(** A diagram edge. Every edge has type [smoothstep] and a closed arrow
    as marker. *)
Record Edge := mkEdge {
  edge_id : string;
  source : string;
  target : string;
  stroke : string
}.

(** An integer inside a template literal. *)
Definition ofInteger (z : Z) : string := NilEmpty.string_of_int (Z.to_int z).

Definition typeName (t : ConsensusType) : string :=
  match t with solo => "solo" | etcdraft => "etcdraft" end.

(** [l.forEach((a, i) => ...)] collecting one result per element, the
    index starting at [i]. *)
Fixpoint mapiFrom {A B : Type} (f : nat -> A -> B) (i : nat) (l : list A) : list B :=
  match l with
  | [] => []
  | a :: l' => f i a :: mapiFrom f (S i) l'
  end.

Definition orgNode (org : Organization) (yOffset : Z) : Node :=
  mkNode ("org-" ++ org_id org) 200 yOffset (org_name org)
         ("MSP: " ++ mspID org) "bg-blue-50 border-2 border-blue-200".

Definition peerNode (yOffset : Z) (peerIndex : nat) (peer : Peer) : Node :=
  mkNode ("peer-" ++ peer_id peer) 500 (yOffset + Z.of_nat peerIndex * 100)
         (peer_name peer) ("Port: " ++ ofInteger (port peer))
         "bg-green-50 border-2 border-green-200".

Definition orgPeerEdge (orgNode peerNode : Node) : Edge :=
  mkEdge (node_id orgNode ++ "-" ++ node_id peerNode)
         (node_id orgNode) (node_id peerNode) "#93C5FD".

(** The loop over the organizations, from the running [yOffset]: the nodes
    and the edges it pushes, in order. *)
Fixpoint visitOrganizations (yOffset : Z) (orgs : list Organization)
  : list Node * list Edge :=
  match orgs with
  | [] => ([], [])
  | org :: rest =>
      let on := orgNode org yOffset in
      let pns := mapiFrom (peerNode yOffset) 0 (peers org) in
      let (ns, es) :=
        visitOrganizations
          (yOffset + Z.max (Z.of_nat (length (peers org)) * 100) 150) rest in
      (on :: pns ++ ns, map (orgPeerEdge on) pns ++ es)
  end.

Definition ordererNode (index : nat) (orderer : Orderer) : Node :=
  mkNode ("orderer-" ++ orderer_id orderer) 800 (100 + Z.of_nat index * 100)
         (orderer_name orderer) ("Type: " ++ typeName (orderer_type orderer))
         "bg-purple-50 border-2 border-purple-200".

Definition ordererEdge (orderer : Orderer) (org : Organization) : Edge :=
  mkEdge ("org-" ++ org_id org ++ "-orderer-" ++ orderer_id orderer)
         ("org-" ++ org_id org) ("orderer-" ++ orderer_id orderer) "#C4B5FD".

(** The effect that rebuilds the diagram: the arguments it passes to
    [setNodes] and [setEdges]. *)
Definition buildGraph (config : NetworkConfig) : list Node * list Edge :=
  let (ns, es) := visitOrganizations 0 (organizations config) in
  (ns ++ mapiFrom ordererNode 0 (orderers config),
   es ++ flat_map (fun orderer => map (ordererEdge orderer) (organizations config))
                  (orderers config)).

(** [s.split('-')], for any separator: the segments between the
    separators, at least one. *)
Fixpoint split (sep : ascii) (s : string) : list string :=
  match s with
  | EmptyString => [EmptyString]
  | String c s' =>
      if Ascii.eqb c sep then EmptyString :: split sep s'
      else match split sep s' with
           | [] => [String c EmptyString]
           | p :: ps => String c p :: ps
           end
  end.

(** [handleNodeClick]: the arguments [(id, type)] it passes to
    [onNodeClick], the second and the first segment of the node id;
    [None] when the node id has no second segment. *)
Definition handleNodeClick (node : Node) : option (string * string) :=
  match split "-" (node_id node) with
  | type :: id :: _ => Some (id, type)
  | _ => None
  end.

(** The part of a string before its first hyphen. *)
Fixpoint firstSegment (s : string) : string :=
  match s with
  | EmptyString => EmptyString
  | String c s' => if Ascii.eqb c "-" then EmptyString else String c (firstSegment s')
  end.

Fixpoint hasHyphen (s : string) : bool :=
  match s with
  | EmptyString => false
  | String c s' => Ascii.eqb c "-" || hasHyphen s'
  end.

Definition position (n : Node) : Z * Z := (x n, y n).

End NetworkVisualizer.

(** *** More concrete inputs *)

(** Identities shaped like the ones [crypto.randomUUID()] returns. *)
Definition uuid4 (n : nat) : string :=
  ("550e8400-e29b-41d4-a716-" ++ JS.ofIndex n)%string.

Definition legacyOrg : Organization :=
  mkOrganization "org-a" "Acme" "acme.example.com" "AcmeMSP"
    [mkPeer "peer-a0" "peer0" 7051 running 5984 7052]
    None "US" "California" "San Francisco".

(* ------------------------------------------------------------------ *)
(** ** The dashboard as a state machine *)

(** What the rendered page lets a user trigger, control by control. The
    ids an event carries are those the page closes over when it renders
    ([org.id], [peer.id], [orderer.id]); any string is accepted here. A
    port typed into a field reaches the handler through [parseInt]; it is
    taken to be an integer. *)
Inductive Event :=
  | CheckConfiguration
  | GenerateConfigs
  | DownloadJSON
  | DownloadAll (zipped : bool)
  | DownloadDocument (file : string)
  | ApplyTemplate (template : NetworkTemplate)
  | AddOrganization
  | RenameOrganization (orgId name : string)
  | ToggleEditingOrg (orgId : string)
  | DeleteOrganization (orgId : string)
  | AddPeer (orgId : string)
  | RenamePeer (orgId peerId name : string)
  | SetPeerPort (orgId peerId : string) (p : Z)
  | ConfirmPeer (orgId peerId name : string) (p : Z)
  | EditPeer (target : option (string * string))
  | DeletePeer (orgId peerId : string)
  | AddOrderer
  | RenameOrderer (ordererId name : string)
  | SetOrdererPort (ordererId : string) (p : Z)
  | SetOrdererType (ordererId : string) (t : ConsensusType)
  | ConfirmOrderer (ordererId name : string) (p : Z) (t : ConsensusType)
  | EditOrderer (target : option string)
  | DeleteOrderer (ordererId : string)
  | NodeClick (nodeId type : string).

Definition nameOnly (name : string) : OrganizationUpdates :=
  mkOrganizationUpdates None (Some name) None None None None None None None.

Definition peerFields (name : option string) (p : option Z) : PeerUpdates :=
  mkPeerUpdates None name p None None None.

Definition ordererFields (name : option string) (p : option Z)
                         (t : option ConsensusType) : OrdererUpdates :=
  mkOrdererUpdates None name None p None t None None.

(** [downloadAll], as far as the state goes: without a preview it only
    notifies; otherwise it notifies success or, when building the archive
    threw, failure. *)
Definition downloadAll (zipped : bool) (s : State) : State :=
  match yamlPreview s with
  | None => showNotification "Generate configurations first" n_error s
  | Some _ =>
      if zipped
      then showNotification "All configuration files downloaded as ZIP" n_success s
      else showNotification "Failed to create zip file" n_error s
  end.

Section Events.

Variable uuid : nat -> string.
Variable generateYAMLConfigs : NetworkConfig -> Thrown + YAMLConfig.
Variable validateNetworkConfig : NetworkConfig -> list ValidationResult.

(** The handler each control is wired to, with the arguments the page
    passes. *)
Definition handle (e : Event) (s : State) : Gen State :=
  match e with
  | CheckConfiguration => ret (checkConfiguration validateNetworkConfig s)
  | GenerateConfigs => ret (settled s (generateConfigs generateYAMLConfigs s))
  | DownloadJSON =>
      ret (showNotification "Network configuration downloaded as JSON" n_success s)
  | DownloadAll zipped => ret (downloadAll zipped s)
  | DownloadDocument file =>
      ret (showNotification (file ++ " downloaded successfully") n_success s)
  | ApplyTemplate template => applyTemplate uuid template s
  | AddOrganization => addOrganization uuid s
  | RenameOrganization orgId name =>
      ret (updateOrganization orgId (nameOnly name) s)
  | ToggleEditingOrg orgId =>
      ret (setEditingOrg
             (match editingOrg s with
              | Some e' => if (e' =? orgId)%string then None else Some orgId
              | None => Some orgId
              end) s)
  | DeleteOrganization orgId => ret (deleteOrganization orgId s)
  | AddPeer orgId => addPeer uuid orgId s
  | RenamePeer orgId peerId name =>
      ret (updatePeer orgId peerId (peerFields (Some name) None) s)
  | SetPeerPort orgId peerId p =>
      ret (updatePeer orgId peerId (peerFields None (Some p)) s)
  | ConfirmPeer orgId peerId name p =>
      ret (updatePeer orgId peerId (peerFields (Some name) (Some p)) s)
  | EditPeer target => ret (setEditingPeer target s)
  | DeletePeer orgId peerId => ret (deletePeer orgId peerId s)
  | AddOrderer => addOrderer uuid s
  | RenameOrderer ordererId name =>
      ret (updateOrderer ordererId (ordererFields (Some name) None None) s)
  | SetOrdererPort ordererId p =>
      ret (updateOrderer ordererId (ordererFields None (Some p) None) s)
  | SetOrdererType ordererId t =>
      ret (updateOrderer ordererId (ordererFields None None (Some t)) s)
  | ConfirmOrderer ordererId name p t =>
      ret (updateOrderer ordererId (ordererFields (Some name) (Some p) (Some t)) s)
  | EditOrderer target => ret (setEditingOrderer target s)
  | DeleteOrderer ordererId => ret (deleteOrderer ordererId s)
  | NodeClick nodeId type => ret (handleNodeClick nodeId type s)
  end.

(** A session: the events of a list, handled one after the other. *)
Fixpoint run (es : list Event) (s : State) : Gen State :=
  match es with
  | [] => ret s
  | e :: es' => s1 <- handle e s ;; run es' s1
  end.

End Events.

(** Organization, peer and orderer ids, kind by kind. *)
Definition orgIds (c : NetworkConfig) : list string :=
  map org_id (organizations c).

(** A session on the sample sequence of identities. *)
Definition sampleSession : list Event :=
  [ApplyTemplate twoOrganizationRaft; AddPeer "uuid-0"; AddOrderer;
   DeleteOrderer "uuid-6"; AddOrganization; RenameOrganization "uuid-3" "Beta";
   DeletePeer "uuid-0" "uuid-1"; AddPeer "uuid-3"].

(* ------------------------------------------------------------------ *)
(** ** Simulation: the scripted transaction flow *)

Module Simulation.

(** The declarations of [Transaction], [Block] and [SimulationState] are
    not among the sources: the records carry the fields the component
    reads and writes. A transaction is created [pending] and becomes
    [committed]; the page renders any other status in red. *)
Inductive TxStatus := tx_pending | tx_committed | tx_other.

Record Transaction := mkTransaction {
  tx_id : string;
  sender : string;
  receiver : string;
  tx_type : string;
  tx_timestamp : Z;
  blockHeight : Z;
  tx_status : TxStatus
}.

Record Block := mkBlock {
  height : Z;
  hash : string;
  timestamp : Z;
  transactions_of : list Transaction;
  previousHash : string
}.

(** An edge of the flow diagram: [edge_type] is the optional [type],
    [animated] and [markerEnd] tell whether the property is present. *)
Record Edge := mkEdge {
  edge_id : string;
  source : string;
  target : string;
  edge_type : option string;
  animated : bool;
  stroke : string;
  markerEnd : bool
}.

Record Node := mkNode {
  node_id : string;
  x : Z;
  y : Z;
  label : string;
  details : option string;
  className : string
}.

Record SimulationState := mkSimulationState {
  blocks : list Block;
  transactions : list Transaction;
  st_nodes : list Node;
  st_edges : list Edge;
  currentBlockHeight : Z
}.

Definition initialState : SimulationState := mkSimulationState [] [] [] [] 0.

Definition transactionTypes : list string :=
  ["Asset Transfer"; "Smart Contract Deploy"; "Smart Contract Invoke";
   "Configuration Update"; "Channel Create"].

(** The form of a new transaction. *)
Record NewTransaction := mkNewTransaction {
  new_sender : string;
  new_receiver : string;
  new_type : string
}.

(** The cells of the component. *)
Record Component := mkComponent {
  state : SimulationState;
  nodes : list Node;
  edges : list Edge;
  newTransaction : NewTransaction;
  simulationStatus : string
}.

Definition setState (st : SimulationState) (c : Component) : Component :=
  mkComponent st (nodes c) (edges c) (newTransaction c) (simulationStatus c).

Definition setNodes (ns : list Node) (c : Component) : Component :=
  mkComponent (state c) ns (edges c) (newTransaction c) (simulationStatus c).

Definition setEdges (es : list Edge) (c : Component) : Component :=
  mkComponent (state c) (nodes c) es (newTransaction c) (simulationStatus c).

Definition setNewTransaction (n : NewTransaction) (c : Component) : Component :=
  mkComponent (state c) (nodes c) (edges c) n (simulationStatus c).

Definition setSimulationStatus (m : string) (c : Component) : Component :=
  mkComponent (state c) (nodes c) (edges c) (newTransaction c) m.

Definition resetSimulation (c : Component) : Component :=
  setSimulationStatus "" (setEdges [] (setNodes [] (setState initialState c))).

(** An integer inside a template literal, and [Date.now().toString()]. *)
Definition ofInteger (z : Z) : string := NilEmpty.string_of_int (Z.to_int z).

(** [s.repeat(n)] for a one-character string. *)
Fixpoint repeatChar (c : ascii) (n : nat) : string :=
  match n with
  | O => EmptyString
  | S n' => String c (repeatChar c n')
  end.

(** [blocks[blocks.length - 1]] *)
Fixpoint lastBlock (bs : list Block) : option Block :=
  match bs with
  | [] => None
  | [b] => Some b
  | _ :: bs' => lastBlock bs'
  end.

(** The five steps of the animation: a message and the edges shown
    with it. *)
Definition flowEdge (id source target color : string) : Edge :=
  mkEdge id source target None true color true.

Definition steps (transaction : Transaction) : list (string * list Edge) :=
  let id := tx_id transaction in
  let s := sender transaction in
  let r := receiver transaction in
  [ ("1. Client submits transaction proposal",
     [ flowEdge ("proposal-" ++ id) s (s ++ "-peer0") "#60A5FA";
       flowEdge ("proposal-backup-" ++ id) s (s ++ "-peer1") "#60A5FA" ]);
    ("2. Peers execute transaction and return endorsement",
     [ flowEdge ("endorsement-" ++ id) (s ++ "-peer0") s "#34D399";
       flowEdge ("endorsement-backup-" ++ id) (s ++ "-peer1") s "#34D399" ]);
    ("3. Client sends endorsed transaction to orderer",
     [ flowEdge ("ordering-" ++ id) s "orderer1" "#F472B6" ]);
    ("4. Orderer creates block and distributes to all peers",
     [ flowEdge ("distribution-1-" ++ id) "orderer1" (s ++ "-peer0") "#A78BFA";
       flowEdge ("distribution-2-" ++ id) "orderer1" (s ++ "-peer1") "#A78BFA";
       flowEdge ("distribution-3-" ++ id) "orderer1" (r ++ "-peer0") "#A78BFA";
       flowEdge ("distribution-4-" ++ id) "orderer1" (r ++ "-peer1") "#A78BFA" ]);
    ("5. Peers validate and commit block to their ledger",
     [ flowEdge ("commit-" ++ id) s r "#10B981" ]) ].

Definition finalEdge (transaction : Transaction) : Edge :=
  mkEdge ("final-" ++ tx_id transaction) (sender transaction)
         (receiver transaction) None false "#10B981" true.

(** [step.edges.find(e => e.id === edge.id)] finds an edge. *)
Definition inStep (stepEdges : list Edge) (edge : Edge) : bool :=
  existsb (fun e => (edge_id e =? edge_id edge)%string) stepEdges.

(** The two halves of one turn of the loop, before and after the timer. *)
Definition showStep (step : string * list Edge) (c : Component) : Component :=
  setEdges (edges c ++ snd step) (setSimulationStatus (fst step) c).

Definition hideStep (step : string * list Edge) (c : Component) : Component :=
  setEdges (filter (fun edge => negb (inStep (snd step) edge)) (edges c)) c.

Fixpoint runSteps (ss : list (string * list Edge)) (c : Component) : Component :=
  match ss with
  | [] => c
  | step :: rest => runSteps rest (hideStep step (showStep step c))
  end.

(** [simulateTransactionFlow], run to its end with no other update of the
    edges between two timers. *)
Definition simulateTransactionFlow (transaction : Transaction) (c : Component)
  : Component :=
  let c1 := runSteps (steps transaction) c in
  let c2 := setSimulationStatus "Transaction completed successfully" c1 in
  setEdges (edges c2 ++ [finalEdge transaction]) c2.

(** The edges a flow shows for a while. *)
Definition transientEdges (transaction : Transaction) : list Edge :=
  flat_map snd (steps transaction).

(** The initial diagram edges set when the component mounts. *)
Definition initialEdges : list Edge :=
  [ mkEdge "org1-peer0-connection" "org1" "org1-peer0" (Some "smoothstep") false "#93C5FD" false;
    mkEdge "org1-peer1-connection" "org1" "org1-peer1" (Some "smoothstep") false "#93C5FD" false;
    mkEdge "org2-peer0-connection" "org2" "org2-peer0" (Some "smoothstep") false "#93C5FD" false;
    mkEdge "org2-peer1-connection" "org2" "org2-peer1" (Some "smoothstep") false "#93C5FD" false ].

Section Ledger.

(** [generateHash] of [utils/cryptoUtils] and [JSON.stringify] on a
    transaction array. *)
Variable generateHash : string -> string.
Variable stringify : list Transaction -> string.

(** [createBlock], over the [state] its closure holds and the clock. *)
Definition createBlock (closed : SimulationState) (now : Z)
                       (txs : list Transaction) : Block :=
  let previousBlock := lastBlock (blocks closed) in
  let height := currentBlockHeight closed + 1 in
  let timestamp := now in
  let previousHash :=
    match previousBlock with
    | Some b => if JS.truthy (hash b) then hash b else repeatChar "0" 64
    | None => repeatChar "0" 64
    end in
  let blockData :=
    (ofInteger height ++ previousHash ++ ofInteger timestamp ++ stringify txs)%string in
  mkBlock height (generateHash blockData) timestamp txs previousHash.

(** What a submission leaves to run once the animation is over: the
    transaction and the [state] the handler closed over. *)
Record Pending := mkPending {
  pending_transaction : Transaction;
  closed_state : SimulationState
}.

(** The synchronous part of [submitTransaction], the animation apart:
    [now1] and [now2] are the two readings of the clock. *)
Definition beginTransaction (now1 now2 : Z) (c : Component)
  : option (Component * Pending) :=
  if negb (JS.truthy (new_sender (newTransaction c)))
     || negb (JS.truthy (new_receiver (newTransaction c)))
  then None
  else
    let transaction :=
      mkTransaction (generateHash (ofInteger now1))
                    (new_sender (newTransaction c))
                    (new_receiver (newTransaction c))
                    (new_type (newTransaction c))
                    now2 (currentBlockHeight (state c) + 1) tx_pending in
    let c1 :=
      setState (mkSimulationState (blocks (state c))
                                  (transactions (state c) ++ [transaction])
                                  (st_nodes (state c)) (st_edges (state c))
                                  (currentBlockHeight (state c))) c in
    Some (setNewTransaction (mkNewTransaction "" "" "Asset Transfer") c1,
          mkPending transaction (state c)).

(** The callback that runs when the animation is over. *)
Definition commitBlock (p : Pending) (now : Z) (c : Component) : Component :=
  let transaction := pending_transaction p in
  let block := createBlock (closed_state p) now [transaction] in
  let prev := state c in
  setState
    (mkSimulationState
       (blocks prev ++ [block])
       (map (fun tx =>
               if (tx_id tx =? tx_id transaction)%string
               then mkTransaction (tx_id tx) (sender tx) (receiver tx) (tx_type tx)
                                  (tx_timestamp tx) (blockHeight tx) tx_committed
               else tx)
            (transactions prev))
       (st_nodes prev) (st_edges prev)
       (currentBlockHeight prev + 1))
    c.


End Ledger.



(** A hash function for examples. *)
Definition sampleHash (s : string) : string := ("h:" ++ s)%string.

Definition sampleStringify (txs : list Transaction) : string :=
  ofInteger (Z.of_nat (length txs)).

(** The nodes set when the component mounts (icons apart). *)
Definition initialNodes : list Node :=
  [ mkNode "org1" 100 100 "Organization 1" None "bg-blue-50 border-2 border-blue-200";
    mkNode "org2" 500 100 "Organization 2" None "bg-blue-50 border-2 border-blue-200";
    mkNode "org1-peer0" 50 250 "Peer 0" (Some "Organization 1")
           "bg-green-50 border-2 border-green-200";
    mkNode "org1-peer1" 150 250 "Peer 1" (Some "Organization 1")
           "bg-green-50 border-2 border-green-200";
    mkNode "org2-peer0" 450 250 "Peer 0" (Some "Organization 2")
           "bg-green-50 border-2 border-green-200";
    mkNode "org2-peer1" 550 250 "Peer 1" (Some "Organization 2")
           "bg-green-50 border-2 border-green-200";
    mkNode "orderer1" 300 400 "Orderer" None "bg-purple-50 border-2 border-purple-200" ].

(** The component once mounted, with a sender and a receiver selected. *)
Definition readyComponent : Component :=
  mkComponent initialState initialNodes initialEdges
              (mkNewTransaction "org1" "org2" "Asset Transfer") "".

End Simulation.

(** *** Vocabulary of the session invariants *)

(** [l'] is [l] with some elements left out, the order kept. *)
Inductive Subsequence {A : Type} : list A -> list A -> Prop :=
  | Subsequence_nil : Subsequence [] []
  | Subsequence_skip a l' l : Subsequence l' l -> Subsequence l' (a :: l)
  | Subsequence_keep a l' l : Subsequence l' l -> Subsequence (a :: l') (a :: l).

(** The identities of an organization: its own, then its peers'. *)
Definition organizationIds (o : Organization) : list string :=
  org_id o :: map peer_id (peers o).

(** The identities of a topology are pairwise distinct and were all drawn
    among the first [k] results of the generator. *)
Definition mintedBefore (uuid : nat -> string) (k : nat) (c : NetworkConfig) : Prop :=
  NoDup (identities c) /\
  forall id, In id (identities c) -> exists j, (j < k)%nat /\ id = uuid j.

(* ------------------------------------------------------------------ *)
(** ** String lemmas *)

Module JSFacts.

Import JS.

Lemma lowerUnit_whitespace (c : ascii) :
  isWhiteSpace (lowerUnit c) = isWhiteSpace c.
Proof.
  destruct c as [[] [] [] [] [] [] [] []]; vm_compute; reflexivity.
Qed.

Lemma stripSpaces_trimStart (s : string) :
  stripSpaces (trimStart s) = stripSpaces s.
Proof.
  induction s as [|c s IH]; simpl; [reflexivity|].
  destruct (isWhiteSpace c) eqn:E; simpl; [exact IH | now rewrite E].
Qed.

Lemma stripSpaces_trimEnd (s : string) :
  stripSpaces (trimEnd s) = stripSpaces s.
Proof.
  induction s as [|c s IH]; simpl; [reflexivity|].
  destruct (trimEnd s) as [|d r] eqn:E.
  - simpl in IH. rewrite <- IH.
    destruct (isWhiteSpace c) eqn:W; simpl; rewrite ?W; reflexivity.
  - change (stripSpaces (String c (String d r)))
      with (if isWhiteSpace c then stripSpaces (String d r)
            else String c (stripSpaces (String d r))).
    now rewrite IH.
Qed.

Lemma stripSpaces_trim (s : string) : stripSpaces (trim s) = stripSpaces s.
Proof.
  unfold trim. now rewrite stripSpaces_trimEnd, stripSpaces_trimStart.
Qed.

Lemma toLowerCase_trimStart (s : string) :
  toLowerCase (trimStart s) = trimStart (toLowerCase s).
Proof.
  induction s as [|c s IH]; simpl; [reflexivity|].
  rewrite lowerUnit_whitespace.
  destruct (isWhiteSpace c); [exact IH | reflexivity].
Qed.

Lemma toLowerCase_trimEnd (s : string) :
  toLowerCase (trimEnd s) = trimEnd (toLowerCase s).
Proof.
  induction s as [|c s IH]; simpl; [reflexivity|].
  rewrite <- IH, lowerUnit_whitespace.
  destruct (trimEnd s) as [|d r]; simpl.
  - destruct (isWhiteSpace c); reflexivity.
  - reflexivity.
Qed.

Lemma toLowerCase_trim (s : string) :
  toLowerCase (trim s) = trim (toLowerCase s).
Proof.
  unfold trim. now rewrite toLowerCase_trimEnd, toLowerCase_trimStart.
Qed.

(** The domain computed from the raw input is the one computed from the
    trimmed name. *)
Lemma stripSpaces_toLowerCase_trim (s : string) :
  stripSpaces (toLowerCase (trim s)) = stripSpaces (toLowerCase s).
Proof. now rewrite toLowerCase_trim, stripSpaces_trim. Qed.

Lemma trimStart_empty (s : string) :
  truthy (trimStart s) = negb (allWhiteSpace s).
Proof.
  induction s as [|c s IH]; simpl; [reflexivity|].
  unfold allWhiteSpace in *; simpl.
  destruct (isWhiteSpace c) eqn:E; simpl; [exact IH | reflexivity].
Qed.




Lemma stripSpaces_noWhiteSpace (s : string) :
  noWhiteSpace (stripSpaces s) = true.
Proof.
  unfold noWhiteSpace.
  induction s as [|c s IH]; simpl; [reflexivity|].
  destruct (isWhiteSpace c) eqn:E; simpl; [exact IH | now rewrite E].
Qed.

End JSFacts.

(* ------------------------------------------------------------------ *)
(** ** Lemmas on minting *)

Section GenFacts.

Context {A B : Type}.

(** What [mapM] returns was produced by the callback on some element. *)
Lemma mapM_In (f : A -> Gen B) (l : list A) (k : nat) (b : B) :
  In b (fst (mapM f l k)) -> exists a k', In a l /\ b = fst (f a k').
Proof.
  revert k. induction l as [|a l IH]; intros k; simpl.
  - intros [].
  - unfold bind. destruct (f a k) as [b0 k1] eqn:E.
    destruct (mapM f l k1) as [bs k2] eqn:E2. simpl.
    intros [<- | Hin].
    + exists a, k. rewrite E. auto.
    + specialize (IH k1). rewrite E2 in IH.
      destruct (IH Hin) as (a' & k' & Ha & Hb). exists a', k'. auto.
Qed.

(** What [Array.from] returns was produced by the callback at some index. *)
Lemma arrayFromAt_In (f : nat -> Gen B) (n i k : nat) (b : B) :
  In b (fst (arrayFromAt f i n k)) -> exists j k', b = fst (f j k').
Proof.
  revert i k. induction n as [|n IH]; intros i k; simpl.
  - intros [].
  - unfold bind. destruct (f i k) as [b0 k1] eqn:E.
    destruct (arrayFromAt f (S i) n k1) as [bs k2] eqn:E2. simpl.
    intros [<- | Hin].
    + exists i, k. now rewrite E.
    + specialize (IH (S i) k1). rewrite E2 in IH. exact (IH Hin).
Qed.

(** A field that depends on the index only is tabulated over the indices. *)
Lemma arrayFromAt_map {C : Type} (f : nat -> Gen B) (h : B -> C) (g : nat -> C) :
  (forall i k, h (fst (f i k)) = g i) ->
  forall n i k, map h (fst (arrayFromAt f i n k)) = map g (seq i n).
Proof.
  intros Hf. induction n as [|n IH]; intros i k; simpl; [reflexivity|].
  unfold bind. specialize (Hf i k). destruct (f i k) as [b0 k1].
  specialize (IH (S i) k1).
  destruct (arrayFromAt f (S i) n k1) as [bs k2]. simpl in *.
  now rewrite Hf, IH.
Qed.

(** When each call draws one identity and stores it in the field [h], the
    field lists the draws in order and the count advances by the length. *)
Lemma arrayFromAt_draws (uuid : nat -> string) (f : nat -> Gen B) (h : B -> string) :
  (forall i k, h (fst (f i k)) = uuid k /\ snd (f i k) = S k) ->
  forall n i k,
    map h (fst (arrayFromAt f i n k)) = map uuid (seq k n) /\
    snd (arrayFromAt f i n k) = (k + n)%nat.
Proof.
  intros Hf. induction n as [|n IH]; intros i k; simpl.
  - split; [reflexivity | now rewrite Nat.add_0_r].
  - unfold bind. destruct (Hf i k) as [H1 H2]. destruct (f i k) as [b0 k1].
    simpl in H1, H2. subst k1.
    destruct (IH (S i) (S k)) as [H3 H4].
    destruct (arrayFromAt f (S i) n (S k)) as [bs k2]. simpl in *.
    rewrite H1, H3. split; [reflexivity | lia].
Qed.

Lemma arrayFromAt_length (f : nat -> Gen B) (n i k : nat) :
  length (fst (arrayFromAt f i n k)) = n.
Proof.
  revert i k. induction n as [|n IH]; intros i k; simpl; [reflexivity|].
  unfold bind. destruct (f i k) as [b0 k1]. specialize (IH (S i) k1).
  destruct (arrayFromAt f (S i) n k1) as [bs k2]. simpl in *. now rewrite IH.
Qed.

End GenFacts.

(** Distinct indices give distinct ports at any base. *)
Lemma NoDup_offsets (base : Z) (i n : nat) :
  NoDup (map (fun j => base + Z.of_nat j) (seq i n)).
Proof.
  revert i. induction n as [|n IH]; intros i; simpl; constructor.
  - rewrite in_map_iff. intros (j & E & Hj). apply in_seq in Hj. lia.
  - apply IH.
Qed.

Lemma distinctb_NoDup (l : list Z) : distinctb l = true <-> NoDup l.
Proof.
  induction l as [|x l IH]; simpl.
  - split; [constructor | reflexivity].
  - rewrite andb_true_iff, negb_true_iff, IH, NoDup_cons_iff.
    assert (existsb (Z.eqb x) l = false <-> ~ In x l) as ->; [| tauto].
    rewrite <- not_true_iff_false, existsb_exists.
    split; intros H.
    + intros Hin. apply H. exists x. split; [exact Hin | apply Z.eqb_refl].
    + intros (y & Hy & E). apply Z.eqb_eq in E. subst y. exact (H Hy).
Qed.

(* ------------------------------------------------------------------ *)
(** ** Preset instantiation *)

Section ApplyTemplateFacts.

Import JS.

Variable uuid : nat -> string.

Lemma applyTemplate_config (t : NetworkTemplate) (s : State) (k : nat) :
  config (fst (applyTemplate uuid t s k))
  = mkNetworkConfig
      (fst (mapM (templateOrganization uuid) (t_organizations t) k))
      (fst (arrayFrom (ordererCount t) (newOrderer uuid)
              (snd (mapM (templateOrganization uuid) (t_organizations t) k))))
      (t_channelName t) "SampleConsortium" "2.0" (Some t) (t_stateDatabase t).
Proof.
  unfold applyTemplate, bind.
  destruct (mapM (templateOrganization uuid) (t_organizations t) k) as [os k1].
  cbn [fst snd].
  destruct (arrayFrom (ordererCount t) (newOrderer uuid) k1) as [rs k2].
  reflexivity.
Qed.

Lemma templateOrganization_fields (org : TemplateOrg) (k : nat) :
  let o := fst (templateOrganization uuid org k) in
  org_id o = uuid k /\
  org_name o = t_name org /\
  domain o = (stripSpaces (toLowerCase (t_name org)) ++ ".example.com")%string /\
  mspID o = (stripSpaces (t_name org) ++ "MSP")%string /\
  peers o = fst (arrayFrom (peerCount org) (newPeer uuid) (S k)).
Proof.
  unfold templateOrganization, bind, randomUUID.
  destruct (arrayFrom (peerCount org) (newPeer uuid) (S k)) as [ps k1].
  simpl. repeat split.
Qed.

End ApplyTemplateFacts.

(* ------------------------------------------------------------------ *)
(** ** Derived fields of a new organization *)

(** C4, as amended: for every organization created without an override (by
    addOrganization or by instantiating a preset) the mspID is the
    organization's name with all white space removed, followed by MSP. It
    is therefore a function of the name, and the part before the suffix
    holds no white space. Characters that are neither white space nor
    alphanumeric are kept. *)
Theorem mspID_is_name_without_whitespace (uuid : nat -> string) (o : Organization) :
  createdByDashboard uuid o ->
  mspID o = (JS.stripSpaces (org_name o) ++ "MSP")%string /\
  noWhiteSpace (JS.stripSpaces (org_name o)) = true.
Proof.
  intros Hc. split; [| apply JSFacts.stripSpaces_noWhiteSpace].
  destruct Hc as [(s & k & Hname & Horgs) | (t & s & k & Hin)].
  - unfold addOrganization in Horgs. rewrite Hname in Horgs. simpl in Horgs.
    apply app_inj_tail in Horgs. destruct Horgs as [_ <-]. simpl.
    now rewrite JSFacts.stripSpaces_trim.
  - rewrite applyTemplate_config in Hin. simpl in Hin.
    apply mapM_In in Hin. destruct Hin as (a & k' & _ & ->).
    destruct (templateOrganization_fields uuid a k') as (_ & Hn & _ & Hm & _).
    now rewrite Hm, Hn.
Qed.

Lemma mspID_is_name_without_whitespace_witness :
  let o := mkOrganization "uuid-0" "Example Org" "exampleorg.example.com"
             "ExampleOrgMSP" [] None "US" "California" "San Francisco" in
  mspID o = (JS.stripSpaces (org_name o) ++ "MSP")%string /\
  noWhiteSpace (JS.stripSpaces (org_name o)) = true.
Proof.
  apply (mspID_is_name_without_whitespace uuid0).
  left. exists (setNewOrgName " Example Org " initialState), 0%nat.
  split; reflexivity.
Defined.

(** C4, as stated, fails: the organization added under the name Org-1 gets
    the mspID Org-1MSP, with the hyphen, and not Org1MSP. *)
Lemma mspID_keeps_punctuation :
  let o := mkOrganization "uuid-0" "Org-1" "org-1.example.com" "Org-1MSP"
             [] None "US" "California" "San Francisco" in
  createdByDashboard uuid0 o /\
  mspID o = "Org-1MSP" /\
  mspID_spec (org_name o) = "Org1MSP" /\
  mspID o <> mspID_spec (org_name o).
Proof.
  cbv zeta. split; [| split; [| split]].
  - left. exists (setNewOrgName "Org-1" initialState), 0%nat.
    split; reflexivity.
  - reflexivity.
  - reflexivity.
  - discriminate.
Qed.

Lemma lowerUnit_not_upper (c : ascii) :
  negb ((65 <=? N_of_ascii (JS.lowerUnit c))%N
        && (N_of_ascii (JS.lowerUnit c) <=? 90)%N) = true.
Proof.
  destruct c as [[] [] [] [] [] [] [] []]; vm_compute; reflexivity.
Qed.

Lemma forallb_str_stripSpaces (p : ascii -> bool) (s : string) :
  JS.forallb_str p s = true -> JS.forallb_str p (JS.stripSpaces s) = true.
Proof.
  induction s as [|c s IH]; simpl; [reflexivity|].
  intros H. apply andb_true_iff in H. destruct H as [Hc Hs].
  destruct (JS.isWhiteSpace c); simpl; [auto | rewrite Hc; auto].
Qed.

(** The stem of a derived domain holds no upper-case letter. *)
Lemma stem_noUpperCase (s : string) :
  noUpperCase (JS.stripSpaces (JS.toLowerCase s)) = true.
Proof.
  unfold noUpperCase. apply forallb_str_stripSpaces.
  induction s as [|c s IH]; simpl; [reflexivity|].
  now rewrite lowerUnit_not_upper, IH.
Qed.


(* ------------------------------------------------------------------ *)
(** ** Updating an organization *)

(** C10: updateOrganization touches at most the organizations carrying the
    given id. The orderers and the network-level fields are unchanged, the
    organization sequence keeps its length and its order (position i of
    the result is position i of the input, merged with the updates when
    its id matches), and an organization with another id is unchanged. *)
Theorem updateOrganization_frame (orgId : string) (updates : OrganizationUpdates)
                                 (s : State) :
  let c := config s in
  let c' := config (updateOrganization orgId updates s) in
  orderers c' = orderers c /\
  channelName c' = channelName c /\
  consortium c' = consortium c /\
  networkVersion c' = networkVersion c /\
  stateDatabase c' = stateDatabase c /\
  template c' = template c /\
  length (organizations c') = length (organizations c) /\
  (forall i,
      nth_error (organizations c') i
      = option_map (fun o => if (org_id o =? orgId)%string
                             then mergeOrganization o updates else o)
                   (nth_error (organizations c) i)) /\
  (forall i o,
      nth_error (organizations c) i = Some o -> org_id o <> orgId ->
      nth_error (organizations c') i = Some o).
Proof.
  simpl. repeat split.
  - apply length_map.
  - intros i. apply nth_error_map.
  - intros i o Hi Hid. rewrite nth_error_map, Hi. simpl.
    apply String.eqb_neq in Hid. now rewrite Hid.
Qed.

(* ------------------------------------------------------------------ *)
(** ** Generating the documents *)

(** What generateConfigs does, whatever generateYAMLConfigs is: without
    organizations it reports an error and sets nothing; otherwise it
    passes the topology on, is left by what that call throws, and stores
    the documents it returns. *)
Lemma generateConfigs_cases
    (generateYAMLConfigs : NetworkConfig -> Thrown + YAMLConfig) (s : State) :
  generateConfigs generateYAMLConfigs s
  = match organizations (config s) with
    | [] => inr (showNotification
                   "Add at least one organization before generating configs"
                   n_error s)
    | _ :: _ =>
        match generateYAMLConfigs (config s) with
        | inl thrown => inl thrown
        | inr configs =>
            inr (showNotification "Configuration files generated successfully"
                   n_success (setYamlPreview (Some configs) s))
        end
    end.
Proof.
  unfold generateConfigs. destruct (organizations (config s)); reflexivity.
Qed.

(** C2: with the compiler the specification describes, generateConfigs
    fails with the structural blocker and produces no documents if and
    only if the topology has zero organizations or zero orderers (its own
    guard reports the missing organizations, the compiler throws
    MalformedTopology for the missing orderers); for every topology with
    at least one organization and at least one orderer it produces the
    three documents and stores them as the preview. *)
Theorem generateConfigs_fails_iff_empty
    (render : NetworkConfig -> YAMLConfig) (s : State) :
  let r := generateConfigs (compile render) s in
  (producedNoDocuments s r <->
   organizations (config s) = [] \/ orderers (config s) = []) /\
  match organizations (config s), orderers (config s) with
  | _ :: _, _ :: _ =>
      exists s', r = inr s' /\
                 yamlPreview s' = Some (render (config s)) /\
                 reported s' = Some n_success /\
                 config s' = config s
  | [], _ => exists s', r = inr s' /\ reported s' = Some n_error /\
                        yamlPreview s' = yamlPreview s /\ config s' = config s
  | _ :: _, [] => r = inl MalformedTopology
  end.
Proof.
  cbv zeta. rewrite generateConfigs_cases. unfold compile.
  destruct (organizations (config s)) as [|o os].
  - split.
    + split; [intros _; now left | intros _; split; reflexivity].
    + destruct (orderers (config s)); eexists; repeat split.
  - destruct (orderers (config s)) as [|r rs].
    + split; [| reflexivity].
      split; [intros _; now right | intros _; exact I].
    + split.
      * split; [intros [H _]; discriminate H | intros [H | H]; discriminate H].
      * eexists. repeat split.
Qed.

(* ------------------------------------------------------------------ *)
(** ** Overall status of a check *)

Section CheckFacts.

Variable validateNetworkConfig : NetworkConfig -> list ValidationResult.

(** What checkConfiguration reports, in terms of the validator's results. *)
Lemma checkConfiguration_reported (s : State) :
  let results := validateNetworkConfig (config s) in
  reported (checkConfiguration validateNetworkConfig s)
  = Some (if existsb isError results then n_error
          else if (0 <? length results)%nat then n_warning
          else n_success).
Proof.
  unfold checkConfiguration. cbv zeta.
  destruct (existsb isError (validateNetworkConfig (config s)));
    [reflexivity|].
  destruct (0 <? length (validateNetworkConfig (config s)))%nat; reflexivity.
Qed.

(** As long as every result is an error or a warning, the status reported
    is the one the specification words. *)
Lemma checkConfiguration_agrees_without_info (s : State) :
  forallb (fun r => isError r || isWarning r)
          (validateNetworkConfig (config s)) = true ->
  reported (checkConfiguration validateNetworkConfig s)
  = Some (overallStatus_spec (validateNetworkConfig (config s))).
Proof.
  intros H. rewrite checkConfiguration_reported. cbv zeta.
  unfold overallStatus_spec.
  destruct (existsb isError (validateNetworkConfig (config s))) eqn:E;
    [reflexivity|].
  destruct (validateNetworkConfig (config s)) as [|r rs]; [reflexivity|].
  simpl in *. apply andb_true_iff in H. destruct H as [H _].
  apply orb_false_iff in E. destruct E as [E _]. rewrite E in H.
  simpl in H. now rewrite H.
Qed.

End CheckFacts.

(** C7, at the failing input: when the validator returns one informational
    result, checkConfiguration reports warnings, where the overall status
    the specification words is clean. *)
Theorem checkConfiguration_info_only_reports_warning :
  reported (checkConfiguration (fun _ => infoOnly) initialState) = Some n_warning /\
  overallStatus_spec infoOnly = n_success.
Proof. split; reflexivity. Qed.

(* ------------------------------------------------------------------ *)
(** ** Ports of an instantiated preset *)

Lemma newPeer_ports (uuid : nat -> string) (i k : nat) :
  peerPorts (fst (newPeer uuid i k))
  = [7051 + Z.of_nat i; 5984 + Z.of_nat i; 7052 + Z.of_nat i].
Proof. reflexivity. Qed.

Lemma NoDup_peerPorts_at (i : nat) :
  NoDup [7051 + Z.of_nat i; 5984 + Z.of_nat i; 7052 + Z.of_nat i].
Proof.
  constructor; [cbn [In]; intros [H | [H | []]]; lia |].
  constructor; [cbn [In]; intros [H | []]; lia |].
  constructor; [intros [] | constructor].
Qed.

(** C1, as amended: in the topology a preset instantiates, ports are
    distinct per entity kind and per organization. Within each
    organization the peer ports are pairwise distinct, and so are the
    CouchDB ports and the chaincode ports; the three ports of any one peer
    are pairwise distinct; the orderer ports are pairwise distinct. *)
Theorem applyTemplate_ports_distinct_per_kind
    (uuid : nat -> string) (t : NetworkTemplate) (s : State) (k : nat) :
  let c := config (fst (applyTemplate uuid t s k)) in
  (forall o, In o (organizations c) ->
     NoDup (map port (peers o)) /\
     NoDup (map couchDBPort (peers o)) /\
     NoDup (map chaincodePort (peers o)) /\
     (forall p, In p (peers o) -> NoDup (peerPorts p))) /\
  NoDup (map orderer_port (orderers c)).
Proof.
  cbv zeta. rewrite applyTemplate_config. simpl. split.
  - intros o Hin. apply mapM_In in Hin. destruct Hin as (a & k' & _ & ->).
    destruct (templateOrganization_fields uuid a k') as (_ & _ & _ & _ & ->).
    unfold arrayFrom. repeat split.
    + rewrite (arrayFromAt_map (newPeer uuid) port
                 (fun j => 7051 + Z.of_nat j)) by reflexivity.
      apply NoDup_offsets.
    + rewrite (arrayFromAt_map (newPeer uuid) couchDBPort
                 (fun j => 5984 + Z.of_nat j)) by reflexivity.
      apply NoDup_offsets.
    + rewrite (arrayFromAt_map (newPeer uuid) chaincodePort
                 (fun j => 7052 + Z.of_nat j)) by reflexivity.
      apply NoDup_offsets.
    + intros p Hp. apply arrayFromAt_In in Hp. destruct Hp as (j & k'' & ->).
      rewrite newPeer_ports. apply NoDup_peerPorts_at.
  - unfold arrayFrom.
    rewrite (arrayFromAt_map (newOrderer uuid) orderer_port
               (fun j => 7050 + Z.of_nat j)) by reflexivity.
    apply NoDup_offsets.
Qed.

(** C1, as stated, fails: in the topology of the Two-Organization Raft
    preset the port 7052 is the chaincode port of every first peer, the
    peer port of every second peer and the port of the third orderer. *)
Lemma twoOrganizationRaft_ports_collide :
  let c := config (fst (applyTemplate uuid0 twoOrganizationRaft initialState 0%nat)) in
  allPorts c = [7051; 5984; 7052; 7052; 5985; 7053;
                7051; 5984; 7052; 7052; 5985; 7053;
                7050; 7051; 7052] /\
  ~ portsUnique c.
Proof.
  cbv zeta. split; [reflexivity|].
  unfold portsUnique. rewrite <- distinctb_NoDup. vm_compute. discriminate.
Qed.

(* ------------------------------------------------------------------ *)
(** ** Identities of an instantiated preset *)

Section FreshIdentities.

Variable uuid : nat -> string.

Lemma mapM_map {A B C : Type} (f : A -> Gen B) (h : B -> C) (g : A -> C) :
  (forall a k, h (fst (f a k)) = g a) ->
  forall l k, map h (fst (mapM f l k)) = map g l.
Proof.
  intros Hf. induction l as [|a l IH]; intros k; simpl; [reflexivity|].
  unfold bind. specialize (Hf a k). destruct (f a k) as [b k1].
  specialize (IH k1). destruct (mapM f l k1) as [bs k2]. simpl in *.
  now rewrite Hf, IH.
Qed.

Lemma newPeer_draw (i k : nat) :
  peer_id (fst (newPeer uuid i k)) = uuid k /\ snd (newPeer uuid i k) = S k.
Proof. split; reflexivity. Qed.

Lemma newOrderer_draw (i k : nat) :
  orderer_id (fst (newOrderer uuid i k)) = uuid k /\
  snd (newOrderer uuid i k) = S k.
Proof. split; reflexivity. Qed.

(** An organization of a preset takes the next identity, its peers the
    ones after it. *)
Lemma templateOrganization_draws (org : TemplateOrg) (k : nat) :
  let r := templateOrganization uuid org k in
  let n := S (Z.to_nat (peerCount org)) in
  org_id (fst r) :: map peer_id (peers (fst r)) = map uuid (seq k n) /\
  snd r = (k + n)%nat.
Proof.
  cbv zeta. unfold templateOrganization, bind, randomUUID, arrayFrom.
  destruct (arrayFromAt_draws uuid (newPeer uuid) peer_id newPeer_draw
              (Z.to_nat (peerCount org)) 0%nat (S k)) as [H1 H2].
  destruct (arrayFromAt (newPeer uuid) 0 (Z.to_nat (peerCount org)) (S k))
    as [ps k1].
  simpl in *. rewrite H1. split; [reflexivity | lia].
Qed.

Lemma mapM_templateOrganization_draws (l : list TemplateOrg) (k : nat) :
  let r := mapM (templateOrganization uuid) l k in
  exists n,
    flat_map (fun o => org_id o :: map peer_id (peers o)) (fst r)
    = map uuid (seq k n) /\
    snd r = (k + n)%nat.
Proof.
  cbv zeta. revert k. induction l as [|a l IH]; intros k; cbn [mapM].
  - exists 0%nat. split; [reflexivity | cbn; lia].
  - unfold bind.
    destruct (templateOrganization_draws a k) as [H1 H2].
    destruct (templateOrganization uuid a k) as [o k1].
    cbn [fst snd] in H1, H2.
    destruct (IH k1) as (m & H3 & H4).
    destruct (mapM (templateOrganization uuid) l k1) as [os k2].
    cbn [fst snd ret flat_map] in *. subst k1.
    exists (S (Z.to_nat (peerCount a)) + m)%nat. split; [| lia].
    rewrite H1, H3, seq_app, map_app. reflexivity.
Qed.

(** Every identity of an instantiated preset is a draw made by that call:
    the identities are the draws from position [k] on, in order. *)
Lemma applyTemplate_identities (t : NetworkTemplate) (s : State) (k : nat) :
  exists n,
    identities (config (fst (applyTemplate uuid t s k))) = map uuid (seq k n).
Proof.
  rewrite applyTemplate_config. unfold identities. simpl.
  destruct (mapM_templateOrganization_draws (t_organizations t) k)
    as (n & H1 & H2).
  rewrite H1, H2. unfold arrayFrom.
  destruct (arrayFromAt_draws uuid (newOrderer uuid) orderer_id newOrderer_draw
              (Z.to_nat (ordererCount t)) 0%nat (k + n)%nat) as [H3 _].
  rewrite H3. exists (n + Z.to_nat (ordererCount t))%nat.
  now rewrite seq_app, map_app.
Qed.

End FreshIdentities.

(** C6: applying a preset replaces the topology wholesale. The resulting
    topology does not depend on the prior state; channel name, consortium,
    version, state database and the organizations' names, peer counts and
    the orderer count are those of the preset; and, the identity generator
    never returning an identity of the prior topology, no identity of the
    prior topology occurs in the result. *)
Theorem applyTemplate_replaces_topology
    (uuid : nat -> string) (t : NetworkTemplate) (s : State) (k : nat) :
  (forall j, (k <= j)%nat -> ~ In (uuid j) (identities (config s))) ->
  let c := config (fst (applyTemplate uuid t s k)) in
  (forall s', config (fst (applyTemplate uuid t s' k)) = c) /\
  channelName c = t_channelName t /\
  consortium c = "SampleConsortium" /\
  networkVersion c = "2.0" /\
  stateDatabase c = t_stateDatabase t /\
  template c = Some t /\
  map org_name (organizations c) = map t_name (t_organizations t) /\
  map (fun o => length (peers o)) (organizations c)
  = map (fun a => Z.to_nat (peerCount a)) (t_organizations t) /\
  length (orderers c) = Z.to_nat (ordererCount t) /\
  (forall id, In id (identities c) -> ~ In id (identities (config s))).
Proof.
  intros Hfresh. cbv zeta. repeat split.
  - intros s'. now rewrite !applyTemplate_config.
  - now rewrite applyTemplate_config.
  - now rewrite applyTemplate_config.
  - now rewrite applyTemplate_config.
  - now rewrite applyTemplate_config.
  - now rewrite applyTemplate_config.
  - rewrite applyTemplate_config. simpl. apply mapM_map.
    intros a k'. apply (templateOrganization_fields uuid a k').
  - rewrite applyTemplate_config. simpl. apply mapM_map.
    intros a k'.
    destruct (templateOrganization_fields uuid a k') as (_ & _ & _ & _ & ->).
    apply arrayFromAt_length.
  - rewrite applyTemplate_config. simpl. apply arrayFromAt_length.
  - intros id Hin.
    destruct (applyTemplate_identities uuid t s k) as (n & Hids).
    rewrite Hids in Hin. apply in_map_iff in Hin.
    destruct Hin as (j & <- & Hj). apply in_seq in Hj.
    apply Hfresh. lia.
Qed.

Lemma applyTemplate_replaces_topology_witness :
  let c := config (fst (applyTemplate uuid0 twoOrganizationRaft legacyState 0%nat)) in
  (forall s', config (fst (applyTemplate uuid0 twoOrganizationRaft s' 0%nat)) = c) /\
  channelName c = "mychannel" /\
  consortium c = "SampleConsortium" /\
  networkVersion c = "2.0" /\
  stateDatabase c = CouchDB /\
  template c = Some twoOrganizationRaft /\
  map org_name (organizations c) = ["Org1"; "Org2"] /\
  map (fun o => length (peers o)) (organizations c) = [2; 2]%nat /\
  length (orderers c) = 3%nat /\
  (forall id, In id (identities c) -> ~ In id (identities legacyConfig)).
Proof.
  apply (applyTemplate_replaces_topology uuid0 twoOrganizationRaft legacyState 0%nat).
  intros j _ [H | [H | [H | []]]]; discriminate H.
Defined.

(* ------------------------------------------------------------------ *)
(** ** Adding a peer *)

Section AddPeerFacts.

Variable uuid : nat -> string.

(** Rewriting the organizations that satisfy an id test, with a rewrite
    that keeps the id, rewrites the first one found. *)
Lemma find_map_rewrite (orgId : string) (f : Organization -> Organization)
                       (l : list Organization) (org : Organization) :
  (forall o, org_id (f o) = org_id o) ->
  find (fun o => (org_id o =? orgId)%string) l = Some org ->
  find (fun o => (org_id o =? orgId)%string)
       (map (fun o => if (org_id o =? orgId)%string then f o else o) l)
  = Some (f org).
Proof.
  intros Hf. induction l as [|o l IH]; simpl; [discriminate|].
  destruct (org_id o =? orgId)%string eqn:E; simpl.
  - intros [= <-]. now rewrite Hf, E.
  - rewrite E. exact IH.
Qed.

(** A collision inside one organization is a collision of the topology. *)
Lemma organization_ports_not_unique (c : NetworkConfig) (o : Organization) :
  In o (organizations c) ->
  ~ NoDup (flat_map peerPorts (peers o)) ->
  ~ portsUnique c.
Proof.
  intros Hin Hdup Hu. apply Hdup. unfold portsUnique, allPorts in Hu.
  apply NoDup_app_remove_r in Hu.
  apply in_split in Hin. destruct Hin as (l1 & l2 & E). rewrite E in Hu.
  rewrite flat_map_app in Hu. apply NoDup_app_remove_l in Hu.
  cbn [flat_map] in Hu. now apply NoDup_app_remove_r in Hu.
Qed.

Lemma addPeer_found (orgId : string) (s : State) (k : nat) (org : Organization) :
  find (fun o => (org_id o =? orgId)%string) (organizations (config s)) = Some org ->
  let p := fst (newPeer uuid (length (peers org)) k) in
  organizations (config (fst (addPeer uuid orgId s k)))
  = map (fun o => if (org_id o =? orgId)%string
                  then withPeers (peers o ++ [p]) o else o)
        (organizations (config s)) /\
  snd (addPeer uuid orgId s k) = S k.
Proof.
  intros Hfind. unfold addPeer. rewrite Hfind. split; reflexivity.
Qed.

End AddPeerFacts.

(** C8: for the organization addPeer finds under the given id, with n
    peers, addPeer appends exactly one peer, with peer port 7051+n,
    CouchDB port 5984+n and chaincode port 7052+n. Consequently, when that
    organization starts without peers and receives two, the second peer's
    peer port and the first peer's chaincode port are both 7052, and the
    topology violates global port uniqueness. *)
Theorem addPeer_offsets_collide
    (uuid : nat -> string) (orgId : string) (s : State) (k : nat)
    (org : Organization) :
  find (fun o => (org_id o =? orgId)%string) (organizations (config s)) = Some org ->
  let n := Z.of_nat (length (peers org)) in
  let s1 := fst (addPeer uuid orgId s k) in
  (exists p,
      port p = 7051 + n /\ couchDBPort p = 5984 + n /\ chaincodePort p = 7052 + n /\
      organizations (config s1)
      = map (fun o => if (org_id o =? orgId)%string
                      then withPeers (peers o ++ [p]) o else o)
            (organizations (config s)) /\
      find (fun o => (org_id o =? orgId)%string) (organizations (config s1))
      = Some (withPeers (peers org ++ [p]) org)) /\
  (peers org = [] ->
   let s2 := fst (addPeer uuid orgId s1 (snd (addPeer uuid orgId s k))) in
   exists p0 p1,
     find (fun o => (org_id o =? orgId)%string) (organizations (config s2))
     = Some (withPeers [p0; p1] org) /\
     chaincodePort p0 = 7052 /\ port p1 = 7052 /\
     ~ portsUnique (config s2)).
Proof.
  intros Hfind. cbv zeta.
  destruct (addPeer_found uuid orgId s k org Hfind) as [Horgs Hk].
  cbv zeta in Horgs.
  assert (Hfind1 :
            find (fun o => (org_id o =? orgId)%string)
                 (organizations (config (fst (addPeer uuid orgId s k))))
            = Some (withPeers
                      (peers org ++ [fst (newPeer uuid (length (peers org)) k)])
                      org)).
  { rewrite Horgs.
    apply (find_map_rewrite orgId
             (fun o => withPeers
                         (peers o ++ [fst (newPeer uuid (length (peers org)) k)])
                         o)); [reflexivity | exact Hfind]. }
  split.
  - exists (fst (newPeer uuid (length (peers org)) k)).
    repeat split; [exact Horgs | exact Hfind1].
  - intros Hempty. rewrite Hk. rewrite Hempty in Hfind1.
    cbn [app length] in Hfind1.
    destruct (addPeer_found uuid orgId _ (S k) _ Hfind1) as [Horgs2 _].
    cbv zeta in Horgs2.
    pose proof (find_map_rewrite orgId
                  (fun o => withPeers
                              (peers o ++ [fst (newPeer uuid 1 (S k))]) o)
                  _ _ (fun _ => eq_refl) Hfind1) as Hfind2.
    cbn [withPeers peers length app] in Horgs2, Hfind2.
    rewrite <- Horgs2 in Hfind2.
    exists (fst (newPeer uuid 0 k)), (fst (newPeer uuid 1 (S k))).
    split; [exact Hfind2 |]. split; [reflexivity |]. split; [reflexivity |].
    apply find_some in Hfind2. destruct Hfind2 as [Hin _].
    apply (organization_ports_not_unique _ _ Hin).
    cbn. rewrite <- distinctb_NoDup. vm_compute. discriminate.
Qed.

Lemma addPeer_offsets_collide_witness :
  let s := fst (addOrganization uuid0 (setNewOrgName "Org1" initialState) 0%nat) in
  let org := mkOrganization "uuid-0" "Org1" "org1.example.com" "Org1MSP"
               [] None "US" "California" "San Francisco" in
  let s1 := fst (addPeer uuid0 "uuid-0" s 1%nat) in
  (exists p,
      port p = 7051 + 0 /\ couchDBPort p = 5984 + 0 /\ chaincodePort p = 7052 + 0 /\
      organizations (config s1)
      = map (fun o => if (org_id o =? "uuid-0")%string
                      then withPeers (peers o ++ [p]) o else o)
            (organizations (config s)) /\
      find (fun o => (org_id o =? "uuid-0")%string) (organizations (config s1))
      = Some (withPeers (peers org ++ [p]) org)) /\
  (peers org = [] ->
   let s2 := fst (addPeer uuid0 "uuid-0" s1 (snd (addPeer uuid0 "uuid-0" s 1%nat))) in
   exists p0 p1,
     find (fun o => (org_id o =? "uuid-0")%string) (organizations (config s2))
     = Some (withPeers [p0; p1] org) /\
     chaincodePort p0 = 7052 /\ port p1 = 7052 /\
     ~ portsUnique (config s2)).
Proof.
  apply (addPeer_offsets_collide uuid0 "uuid-0"
           (fst (addOrganization uuid0 (setNewOrgName "Org1" initialState) 0%nat))
           1%nat
           (mkOrganization "uuid-0" "Org1" "org1.example.com" "Org1MSP"
              [] None "US" "California" "San Francisco")).
  reflexivity.
Defined.

(* ------------------------------------------------------------------ *)
(** ** Validating an instantiated preset *)

Module ValidatorFacts.

Import Validator.

(** The port rule reports errors only. *)
Lemma portRule_errors (c : NetworkConfig) :
  errors (portRule c) = portRule c /\ warnings (portRule c) = [].
Proof.
  unfold portRule, errors, warnings.
  induction (pairs (portSlots c)) as [|[a b] l [IHe IHw]].
  - split; reflexivity.
  - cbn [flat_map]. rewrite !filter_app, IHe, IHw.
    destruct (slot_port a =? slot_port b); split; reflexivity.
Qed.

(** Two organizations with different mspIDs raise no mspID finding. *)
Lemma mspRule_two (c : NetworkConfig) (a b : Organization) :
  organizations c = [a; b] -> mspID a <> mspID b -> mspRule c = [].
Proof.
  intros Horgs Hne. unfold mspRule. rewrite Horgs.
  cbn [pairs map app flat_map].
  apply String.eqb_neq in Hne. now rewrite Hne.
Qed.

End ValidatorFacts.

(** C3, as amended: instantiating a preset of the Two-Organization Raft
    shape (two organizations with two peers each, three orderers), whose
    two derived mspIDs differ and whose channel name is DNS-label-safe, and
    then validating it yields zero warnings and a non-empty list of errors,
    every one of them a duplicate-port error of the port rule. *)
Theorem twoOrgRaft_validates_with_port_errors
    (uuid : nat -> string) (t : NetworkTemplate) (o1 o2 : TemplateOrg)
    (s : State) (k : nat) :
  t_organizations t = [o1; o2] ->
  peerCount o1 = 2 -> peerCount o2 = 2 -> ordererCount t = 3 ->
  (JS.stripSpaces (t_name o1) ++ "MSP")%string
  <> (JS.stripSpaces (t_name o2) ++ "MSP")%string ->
  Validator.labelSafe (t_channelName t) = true ->
  let c := config (fst (applyTemplate uuid t s k)) in
  let rs := Validator.validateNetworkConfig c in
  rs = Validator.portRule c /\
  Validator.warnings rs = [] /\
  Validator.errors rs = rs /\
  rs <> [].
Proof.
  intros Horgs H1 H2 H3 Hmsp Hch. cbv zeta.
  rewrite applyTemplate_config, Horgs, H3.
  destruct o1 as [n1 c1 ty1], o2 as [n2 c2 ty2].
  cbn [peerCount t_name] in H1, H2, Hmsp. subst c1 c2.
  set (c := mkNetworkConfig _ _ _ _ _ _ _).
  assert (Hrs : Validator.validateNetworkConfig c = Validator.portRule c).
  { unfold Validator.validateNetworkConfig.
    assert (Validator.emptinessRule c = []) as -> by reflexivity.
    assert (Validator.mspRule c = []) as ->.
    { eapply ValidatorFacts.mspRule_two; [reflexivity | exact Hmsp]. }
    assert (Validator.consensusRule c = []) as -> by reflexivity.
    assert (Validator.batchRule c = []) as -> by reflexivity.
    assert (Validator.namingRule c = []) as ->.
    { unfold Validator.namingRule, c. cbn [channelName consortium].
      rewrite Hch. reflexivity. }
    now rewrite app_nil_r. }
  rewrite Hrs.
  destruct (ValidatorFacts.portRule_errors c) as [He Hw].
  split; [reflexivity |]. split; [exact Hw |]. split; [exact He |].
  unfold c. vm_compute. discriminate.
Qed.

Lemma twoOrgRaft_validates_with_port_errors_witness :
  let c := config (fst (applyTemplate uuid0 twoOrganizationRaft initialState 0%nat)) in
  let rs := Validator.validateNetworkConfig c in
  rs = Validator.portRule c /\
  Validator.warnings rs = [] /\
  Validator.errors rs = rs /\
  rs <> [].
Proof.
  apply (twoOrgRaft_validates_with_port_errors uuid0 twoOrganizationRaft
           (mkTemplateOrg "Org1" 2 peerOrg) (mkTemplateOrg "Org2" 2 peerOrg)
           initialState 0%nat);
    try reflexivity.
  discriminate.
Defined.

(** C3, as stated, fails: validating the instantiated Two-Organization
    Raft preset yields sixteen errors, the first of which reports port
    7051 as bound by the first peer of both organizations. *)
Lemma twoOrganizationRaft_does_not_validate_clean :
  let c := config (fst (applyTemplate uuid0 twoOrganizationRaft initialState 0%nat)) in
  let rs := Validator.validateNetworkConfig c in
  length (Validator.errors rs) = 16%nat /\
  option_map message (hd_error (Validator.errors rs))
  = Some "port 7051 is bound as peer port of peer0.org1.example.com and as peer port of peer0.org2.example.com".
Proof. cbv zeta. split; vm_compute; reflexivity. Qed.

(* ------------------------------------------------------------------ *)
(** ** Lists: subsequences and insertions *)

Section ListFacts.

Context {A : Type}.

Lemma Subsequence_refl (l : list A) : Subsequence l l.
Proof.
  induction l; [apply Subsequence_nil | apply Subsequence_keep; assumption].
Qed.

Lemma Subsequence_In (l' l : list A) (a : A) :
  Subsequence l' l -> In a l' -> In a l.
Proof.
  induction 1 as [|b l' l _ IH|b l' l _ IH]; simpl; intuition.
Qed.

Lemma Subsequence_NoDup (l' l : list A) :
  Subsequence l' l -> NoDup l -> NoDup l'.
Proof.
  induction 1 as [|b l' l _ IH|b l' l Hs IH]; intros Hn.
  - constructor.
  - inversion Hn; subst. auto.
  - inversion Hn; subst. constructor; [| auto].
    intros Hin. eauto using Subsequence_In.
Qed.

Lemma Subsequence_app (l1' l1 l2' l2 : list A) :
  Subsequence l1' l1 -> Subsequence l2' l2 -> Subsequence (l1' ++ l2') (l1 ++ l2).
Proof.
  induction 1; simpl; intros H2.
  - assumption.
  - apply Subsequence_skip. auto.
  - apply Subsequence_keep. auto.
Qed.

Lemma Subsequence_filter (p : A -> bool) (l : list A) :
  Subsequence (filter p l) l.
Proof.
  induction l as [|a l IH]; simpl; [constructor|].
  destruct (p a); [apply Subsequence_keep | apply Subsequence_skip]; assumption.
Qed.

Lemma Subsequence_nil_l (l : list A) : Subsequence [] l.
Proof.
  induction l; [apply Subsequence_nil | apply Subsequence_skip; assumption].
Qed.

Lemma Add_app_l (a : A) (p l l' : list A) :
  Add a l l' -> Add a (p ++ l) (p ++ l').
Proof. intros H. induction p; simpl; [assumption | now constructor]. Qed.

Lemma Add_app_r (a : A) (l l' q : list A) :
  Add a l l' -> Add a (l ++ q) (l' ++ q).
Proof. induction 1; simpl; constructor; assumption. Qed.

Lemma Add_snoc (a : A) (l : list A) : Add a l (l ++ [a]).
Proof.
  rewrite <- (app_nil_r l) at 1. apply Add_app_l. constructor.
Qed.

Lemma NoDup_app_disjoint (l1 l2 : list A) (a : A) :
  NoDup (l1 ++ l2) -> In a l1 -> ~ In a l2.
Proof.
  induction l1 as [|b l1 IH]; simpl; [intros _ []|].
  intros Hn [-> | Hin] H2.
  - inversion Hn; subst. apply H1. apply in_or_app. now right.
  - inversion Hn; subst. now apply IH.
Qed.

End ListFacts.

Lemma Subsequence_map {A B : Type} (h : A -> B) (l' l : list A) :
  Subsequence l' l -> Subsequence (map h l') (map h l).
Proof.
  induction 1; simpl;
    [apply Subsequence_nil | apply Subsequence_skip | apply Subsequence_keep];
    assumption.
Qed.

(** Leaving out elements, or shrinking what each one contributes, yields a
    subsequence of the flattened list. *)
Lemma Subsequence_flat_map {A B : Type} (f g : A -> list B) (l' l : list A) :
  (forall a, Subsequence (g a) (f a)) ->
  Subsequence l' l -> Subsequence (flat_map g l') (flat_map f l).
Proof.
  intros Hfg. induction 1 as [|a l' l _ IH|a l' l _ IH]; simpl.
  - constructor.
  - change (flat_map g l') with ([] ++ flat_map g l').
    apply Subsequence_app; [apply Subsequence_nil_l | exact IH].
  - apply Subsequence_app; [apply Hfg | exact IH].
Qed.

(* ------------------------------------------------------------------ *)
(** ** Identities along a session *)

Section SessionIdentities.

Variable uuid : nat -> string.
Hypothesis uuid_injective : forall i j, uuid i = uuid j -> i = j.

Lemma identities_unfold (c : NetworkConfig) :
  identities c
  = flat_map organizationIds (organizations c) ++ map orderer_id (orderers c).
Proof. reflexivity. Qed.

Lemma mintedBefore_subsequence (k : nat) (c c' : NetworkConfig) :
  mintedBefore uuid k c ->
  Subsequence (identities c') (identities c) ->
  mintedBefore uuid k c'.
Proof.
  intros [Hn Hb] Hs. split.
  - eapply Subsequence_NoDup; eassumption.
  - intros id Hin. apply Hb. eapply Subsequence_In; eassumption.
Qed.

Lemma mintedBefore_same (k : nat) (c c' : NetworkConfig) :
  mintedBefore uuid k c -> identities c' = identities c ->
  mintedBefore uuid k c'.
Proof.
  intros H E. apply (mintedBefore_subsequence k c c' H).
  rewrite E. apply Subsequence_refl.
Qed.

Lemma mintedBefore_fresh (k : nat) (c : NetworkConfig) :
  mintedBefore uuid k c -> ~ In (uuid k) (identities c).
Proof.
  intros [_ Hb] Hin. destruct (Hb _ Hin) as (j & Hj & E).
  apply uuid_injective in E. lia.
Qed.

Lemma mintedBefore_add (k : nat) (c c' : NetworkConfig) :
  mintedBefore uuid k c ->
  Add (uuid k) (identities c) (identities c') ->
  mintedBefore uuid (S k) c'.
Proof.
  intros H Hadd. pose proof (mintedBefore_fresh k c H) as Hf.
  destruct H as [Hn Hb]. split.
  - apply (NoDup_Add Hadd). split; assumption.
  - intros id Hin. apply (Add_in Hadd) in Hin. destruct Hin as [<- | Hin].
    + exists k. split; [lia | reflexivity].
    + destruct (Hb _ Hin) as (j & Hj & E). exists j. split; [lia | exact E].
Qed.

(** The identities of an instantiated preset, with the new count. *)
Lemma applyTemplate_draws (t : NetworkTemplate) (s : State) (k : nat) :
  exists n,
    identities (config (fst (applyTemplate uuid t s k))) = map uuid (seq k n) /\
    snd (applyTemplate uuid t s k) = (k + n)%nat.
Proof.
  destruct (mapM_templateOrganization_draws uuid (t_organizations t) k)
    as (n & H1 & H2).
  destruct (arrayFromAt_draws uuid (newOrderer uuid) orderer_id
              (newOrderer_draw uuid)
              (Z.to_nat (ordererCount t)) 0%nat (k + n)%nat) as [H3 H4].
  exists (n + Z.to_nat (ordererCount t))%nat. split.
  - rewrite applyTemplate_config. unfold identities. cbn [organizations orderers].
    rewrite H1, H2. unfold arrayFrom. rewrite H3.
    now rewrite seq_app, map_app.
  - unfold applyTemplate, bind.
    destruct (mapM (templateOrganization uuid) (t_organizations t) k)
      as [os k1].
    cbn [snd] in H2. subst k1.
    unfold arrayFrom.
    destruct (arrayFromAt (newOrderer uuid) 0 (Z.to_nat (ordererCount t))
                (k + n)%nat) as [rs k2].
    cbn [snd ret] in *. lia.
Qed.

Lemma applyTemplate_minted (t : NetworkTemplate) (s : State) (k : nat) :
  mintedBefore uuid (snd (applyTemplate uuid t s k))
               (config (fst (applyTemplate uuid t s k))).
Proof.
  destruct (applyTemplate_draws t s k) as (n & Hids & Hk).
  rewrite Hk. split; rewrite Hids.
  - clear Hids Hk. generalize k. induction n as [|n IH]; intros k0; simpl.
    + constructor.
    + constructor; [| apply IH].
      rewrite in_map_iff. intros (j & E & Hj). apply in_seq in Hj.
      apply uuid_injective in E. lia.
  - intros id Hin. apply in_map_iff in Hin. destruct Hin as (j & <- & Hj).
    apply in_seq in Hj. exists j. split; [lia | reflexivity].
Qed.

Lemma addOrganization_minted (s : State) (k : nat) :
  mintedBefore uuid k (config s) ->
  mintedBefore uuid (snd (addOrganization uuid s k))
               (config (fst (addOrganization uuid s k))).
Proof.
  intros H. unfold addOrganization.
  destruct (negb (JS.truthy (JS.trim (newOrgName s)))).
  - exact H.
  - cbn. apply (mintedBefore_add k (config s)); [exact H|].
    rewrite !identities_unfold. cbn [organizations orderers withOrganizations].
    rewrite flat_map_app. cbn [flat_map organizationIds peers map org_id app].
    apply Add_app_r. apply Add_snoc.
Qed.

Lemma addOrderer_minted (s : State) (k : nat) :
  mintedBefore uuid k (config s) ->
  mintedBefore uuid (snd (addOrderer uuid s k))
               (config (fst (addOrderer uuid s k))).
Proof.
  intros H. cbn. apply (mintedBefore_add k (config s)); [exact H|].
  rewrite !identities_unfold. cbn [organizations orderers withOrderers].
  rewrite map_app. cbn [map orderer_id]. apply Add_app_l. apply Add_snoc.
Qed.

(** Appending a peer to the organizations of a given id, when identities
    are distinct, inserts one identity. *)
Lemma appendPeer_Add (orgId : string) (p : Peer) (l : list Organization)
                     (org : Organization) :
  NoDup (flat_map organizationIds l) ->
  find (fun o => (org_id o =? orgId)%string) l = Some org ->
  Add (peer_id p) (flat_map organizationIds l)
      (flat_map organizationIds
         (map (fun o => if (org_id o =? orgId)%string
                        then withPeers (peers o ++ [p]) o else o) l)).
Proof.
  induction l as [|o l IH]; [discriminate|].
  intros Hn Hfind. cbn [find map flat_map] in *.
  destruct (org_id o =? orgId)%string eqn:E.
  - assert (Hrest :
              map (fun o0 => if (org_id o0 =? orgId)%string
                             then withPeers (peers o0 ++ [p]) o0 else o0) l = l).
    { rewrite <- (map_id l) at 2. apply map_ext_in. intros o' Hin.
      destruct (org_id o' =? orgId)%string eqn:E'; [| reflexivity].
      exfalso. apply String.eqb_eq in E, E'.
      apply (NoDup_app_disjoint _ _ (org_id o) Hn).
      - left. reflexivity.
      - apply in_flat_map. exists o'. split; [exact Hin|].
        left. congruence. }
    rewrite Hrest.
    assert (organizationIds (withPeers (peers o ++ [p]) o)
            = organizationIds o ++ [peer_id p]) as ->.
    { unfold organizationIds. cbn [org_id peers withPeers].
      now rewrite map_app. }
    apply Add_app_r. apply Add_snoc.
  - apply Add_app_l. apply IH; [| exact Hfind].
    now apply NoDup_app_remove_l in Hn.
Qed.

Lemma addPeer_minted (orgId : string) (s : State) (k : nat) :
  mintedBefore uuid k (config s) ->
  mintedBefore uuid (snd (addPeer uuid orgId s k))
               (config (fst (addPeer uuid orgId s k))).
Proof.
  intros H. unfold addPeer.
  destruct (find (fun o => (org_id o =? orgId)%string) (organizations (config s)))
    as [org|] eqn:Hfind; [| exact H].
  cbn. apply (mintedBefore_add k (config s)); [exact H|].
  rewrite !identities_unfold. cbn [organizations orderers withOrganizations].
  apply Add_app_r.
  apply (appendPeer_Add orgId
           (mkPeer (uuid k) ("peer" ++ JS.ofIndex (length (peers org)))
              (7051 + Z.of_nat (length (peers org))) pending
              (5984 + Z.of_nat (length (peers org)))
              (7052 + Z.of_nat (length (peers org)))) _ org);
    [| exact Hfind].
  destruct H as [Hn _]. rewrite identities_unfold in Hn.
  now apply NoDup_app_remove_r in Hn.
Qed.

End SessionIdentities.

Lemma flat_map_map_same {A B C : Type} (f : B -> list C) (g : A -> B)
                        (f' : A -> list C) (l : list A) :
  (forall a, f (g a) = f' a) -> flat_map f (map g l) = flat_map f' l.
Proof.
  intros H. induction l as [|a l IH]; simpl; [reflexivity|].
  now rewrite H, IH.
Qed.

Lemma Subsequence_flat_map_map {A B : Type} (f : A -> list B) (g : A -> A)
                               (l : list A) :
  (forall a, Subsequence (f (g a)) (f a)) ->
  Subsequence (flat_map f (map g l)) (flat_map f l).
Proof.
  intros H. induction l as [|a l IH]; simpl.
  - apply Subsequence_nil.
  - apply Subsequence_app; [apply H | exact IH].
Qed.

(** *** What each handler does to the topology's identities *)

Section HandlerIdentities.

Lemma checkConfiguration_config
    (validateNetworkConfig : NetworkConfig -> list ValidationResult) (s : State) :
  config (checkConfiguration validateNetworkConfig s) = config s.
Proof.
  unfold checkConfiguration. cbv zeta.
  destruct (existsb isError (validateNetworkConfig (config s)));
    [reflexivity|].
  destruct (0 <? length (validateNetworkConfig (config s)))%nat; reflexivity.
Qed.

Lemma generateConfigs_config
    (generateYAMLConfigs : NetworkConfig -> Thrown + YAMLConfig) (s : State) :
  config (settled s (generateConfigs generateYAMLConfigs s)) = config s.
Proof.
  unfold generateConfigs.
  destruct (length (organizations (config s)) =? 0)%nat; [reflexivity|].
  destruct (generateYAMLConfigs (config s)); reflexivity.
Qed.

Lemma downloadAll_config (zipped : bool) (s : State) :
  config (downloadAll zipped s) = config s.
Proof.
  unfold downloadAll. destruct (yamlPreview s); [destruct zipped|]; reflexivity.
Qed.

Lemma handleNodeClick_config (nodeId type : string) (s : State) :
  config (handleNodeClick nodeId type s) = config s.
Proof.
  unfold handleNodeClick.
  destruct (type =? "org")%string; [reflexivity|].
  destruct (type =? "orderer")%string; [reflexivity|].
  destruct (type =? "peer")%string; [| reflexivity].
  destruct (find _ _); reflexivity.
Qed.

(** Deleting leaves a subsequence of the identities. *)
Lemma deleteOrganization_identities (orgId : string) (s : State) :
  Subsequence (identities (config (deleteOrganization orgId s)))
              (identities (config s)).
Proof.
  rewrite !identities_unfold. cbn [deleteOrganization config showNotification
    setNotification updateConfig setConfig organizations orderers withOrganizations].
  apply Subsequence_app; [| apply Subsequence_refl].
  apply Subsequence_flat_map; [intros a; apply Subsequence_refl|].
  apply Subsequence_filter.
Qed.

Lemma deletePeer_identities (orgId peerId : string) (s : State) :
  Subsequence (identities (config (deletePeer orgId peerId s)))
              (identities (config s)).
Proof.
  rewrite !identities_unfold. cbn [deletePeer config showNotification
    setNotification updateConfig setConfig organizations orderers withOrganizations].
  apply Subsequence_app; [| apply Subsequence_refl].
  apply Subsequence_flat_map_map. intros o.
  destruct (org_id o =? orgId)%string; [| apply Subsequence_refl].
  unfold organizationIds. cbn [org_id peers withPeers].
  apply Subsequence_keep. apply Subsequence_map. apply Subsequence_filter.
Qed.

Lemma deleteOrderer_identities (ordererId : string) (s : State) :
  Subsequence (identities (config (deleteOrderer ordererId s)))
              (identities (config s)).
Proof.
  rewrite !identities_unfold. cbn [deleteOrderer config showNotification
    setNotification updateConfig setConfig organizations orderers withOrderers].
  apply Subsequence_app; [apply Subsequence_refl|].
  apply Subsequence_map. apply Subsequence_filter.
Qed.

(** An update that carries no id and no peer list keeps the identities. *)
Lemma updateOrganization_identities (orgId : string) (updates : OrganizationUpdates)
                                    (s : State) :
  u_id updates = None -> u_peers updates = None ->
  identities (config (updateOrganization orgId updates s))
  = identities (config s).
Proof.
  intros Hid Hpeers. rewrite !identities_unfold.
  cbn [updateOrganization config showNotification setNotification updateConfig
       setConfig organizations orderers withOrganizations].
  f_equal. apply flat_map_map_same. intros o.
  destruct (org_id o =? orgId)%string; [| reflexivity].
  unfold organizationIds, mergeOrganization. cbn [org_id peers].
  now rewrite Hid, Hpeers.
Qed.

Lemma updatePeer_identities (orgId peerId : string) (updates : PeerUpdates)
                            (s : State) :
  pu_id updates = None ->
  identities (config (updatePeer orgId peerId updates s))
  = identities (config s).
Proof.
  intros Hid. rewrite !identities_unfold.
  cbn [updatePeer config showNotification setNotification setEditingPeer
       updateConfig setConfig organizations orderers withOrganizations].
  f_equal. apply flat_map_map_same. intros o.
  destruct (org_id o =? orgId)%string; [| reflexivity].
  unfold organizationIds. cbn [org_id peers withPeers]. f_equal.
  rewrite map_map. apply map_ext. intros p.
  destruct (peer_id p =? peerId)%string; [| reflexivity].
  unfold mergePeer. cbn [peer_id]. now rewrite Hid.
Qed.

Lemma updateOrderer_identities (ordererId : string) (updates : OrdererUpdates)
                               (s : State) :
  ou_id updates = None ->
  identities (config (updateOrderer ordererId updates s))
  = identities (config s).
Proof.
  intros Hid. rewrite !identities_unfold.
  cbn [updateOrderer config showNotification setNotification setEditingOrderer
       updateConfig setConfig organizations orderers withOrderers].
  f_equal. rewrite map_map. apply map_ext. intros o.
  destruct (orderer_id o =? ordererId)%string; [| reflexivity].
  unfold mergeOrderer. cbn [orderer_id]. now rewrite Hid.
Qed.

End HandlerIdentities.

Section SessionInvariant.

Variable uuid : nat -> string.
Variable generateYAMLConfigs : NetworkConfig -> Thrown + YAMLConfig.
Variable validateNetworkConfig : NetworkConfig -> list ValidationResult.
Hypothesis uuid_injective : forall i j, uuid i = uuid j -> i = j.

Let handle' := handle uuid generateYAMLConfigs validateNetworkConfig.
Let run' := run uuid generateYAMLConfigs validateNetworkConfig.

Lemma handle_minted (e : Event) (s : State) (k : nat) :
  mintedBefore uuid k (config s) ->
  mintedBefore uuid (snd (handle' e s k)) (config (fst (handle' e s k))).
Proof.
  intros H. subst handle'.
  destruct e; cbn [handle ret fst snd];
    try (apply (mintedBefore_same uuid k (config s)); [exact H|];
         first [ now rewrite checkConfiguration_config
               | now rewrite generateConfigs_config
               | now rewrite downloadAll_config
               | now rewrite handleNodeClick_config
               | now apply updateOrganization_identities
               | now apply updatePeer_identities
               | now apply updateOrderer_identities
               | reflexivity ]).
  - apply applyTemplate_minted. exact uuid_injective.
  - now apply addOrganization_minted.
  - apply (mintedBefore_subsequence uuid k (config s)); [exact H|].
    apply deleteOrganization_identities.
  - now apply addPeer_minted.
  - apply (mintedBefore_subsequence uuid k (config s)); [exact H|].
    apply deletePeer_identities.
  - now apply addOrderer_minted.
  - apply (mintedBefore_subsequence uuid k (config s)); [exact H|].
    apply deleteOrderer_identities.
Qed.

Lemma run_minted (es : list Event) (s : State) (k : nat) :
  mintedBefore uuid k (config s) ->
  mintedBefore uuid (snd (run' es s k)) (config (fst (run' es s k))).
Proof.
  subst run'. revert s k. induction es as [|e es IH]; intros s k H.
  - exact H.
  - cbn [run]. unfold bind.
    pose proof (handle_minted e s k H) as H1. subst handle'.
    destruct (handle uuid generateYAMLConfigs validateNetworkConfig e s k)
      as [s1 k1].
    apply IH. exact H1.
Qed.

End SessionInvariant.

Lemma ofIndex_injective (i j : nat) : JS.ofIndex i = JS.ofIndex j -> i = j.
Proof.
  unfold JS.ofIndex. intros E. apply Unsigned.to_uint_inj.
  apply (f_equal NilEmpty.uint_of_string) in E.
  rewrite !NilEmpty.usu in E. now injection E.
Qed.

Lemma uuid0_injective (i j : nat) : uuid0 i = uuid0 j -> i = j.
Proof.
  unfold uuid0. cbn [append]. intros E. apply ofIndex_injective. now injection E.
Qed.

(** X1: in every state a session reaches from the initial state, whatever
    the events, the identities of the topology (organizations, peers and
    orderers together) are pairwise distinct, provided the identity
    generator never returns the same identity twice. *)
Theorem session_identities_distinct
    (uuid : nat -> string)
    (generateYAMLConfigs : NetworkConfig -> Thrown + YAMLConfig)
    (validateNetworkConfig : NetworkConfig -> list ValidationResult)
    (es : list Event) :
  (forall i j, uuid i = uuid j -> i = j) ->
  NoDup (identities
           (config (fst (run uuid generateYAMLConfigs validateNetworkConfig
                             es initialState 0%nat)))).
Proof.
  intros Hinj.
  apply (run_minted uuid generateYAMLConfigs validateNetworkConfig Hinj
           es initialState 0%nat).
  split; [constructor | intros id []].
Qed.

Lemma session_identities_distinct_witness :
  NoDup (identities
           (config (fst (run uuid0 (compile sampleRender) Validator.validateNetworkConfig
                             sampleSession initialState 0%nat)))).
Proof.
  apply (session_identities_distinct uuid0 (compile sampleRender)
           Validator.validateNetworkConfig sampleSession).
  exact uuid0_injective.
Defined.

(* ------------------------------------------------------------------ *)
(** ** The name of a new organization *)

Section NewOrgName.

Variable uuid : nat -> string.
Variable generateYAMLConfigs : NetworkConfig -> Thrown + YAMLConfig.
Variable validateNetworkConfig : NetworkConfig -> list ValidationResult.

Lemma applyTemplate_newOrgName (t : NetworkTemplate) (s : State) (k : nat) :
  newOrgName (fst (applyTemplate uuid t s k)) = newOrgName s.
Proof.
  unfold applyTemplate, bind.
  destruct (mapM (templateOrganization uuid) (t_organizations t) k) as [os k1].
  destruct (arrayFrom (ordererCount t) (newOrderer uuid) k1) as [rs k2].
  reflexivity.
Qed.

(** No handler stores anything but the empty string in [newOrgName]. *)
Lemma handle_newOrgName (e : Event) (s : State) (k : nat) :
  newOrgName s = "" ->
  newOrgName (fst (handle uuid generateYAMLConfigs validateNetworkConfig e s k)) = "".
Proof.
  intros H. destruct e; cbn [handle ret fst]; try exact H.
  - unfold checkConfiguration. cbv zeta.
    destruct (existsb isError _); [exact H|].
    destruct (0 <? _)%nat; exact H.
  - unfold generateConfigs. destruct (_ =? 0)%nat; [exact H|].
    destruct (generateYAMLConfigs (config s)); exact H.
  - unfold downloadAll. destruct (yamlPreview s); [destruct zipped|]; exact H.
  - now rewrite applyTemplate_newOrgName.
  - unfold addOrganization.
    destruct (negb (JS.truthy (JS.trim (newOrgName s)))); [exact H | reflexivity].
  - unfold addPeer. destruct (find _ _); exact H.
  - unfold handleNodeClick.
    destruct (type =? "org")%string; [exact H|].
    destruct (type =? "orderer")%string; [exact H|].
    destruct (type =? "peer")%string; [| exact H].
    destruct (find _ _); exact H.
Qed.

Lemma run_newOrgName (es : list Event) (s : State) (k : nat) :
  newOrgName s = "" ->
  newOrgName (fst (run uuid generateYAMLConfigs validateNetworkConfig es s k)) = "".
Proof.
  revert s k. induction es as [|e es IH]; intros s k H; [exact H|].
  cbn [run]. unfold bind.
  pose proof (handle_newOrgName e s k H) as H1.
  destruct (handle uuid generateYAMLConfigs validateNetworkConfig e s k)
    as [s1 k1].
  apply IH. exact H1.
Qed.

End NewOrgName.

(** X2: nothing the page offers ever stores a name for a new organization
    ([newOrgName] is only reset to the empty string). So in every state a
    session reaches from the initial state, the Add Org control is
    refused: it shows the name-required error, adds no organization and
    mints no identity. *)
Theorem session_addOrganization_refused
    (uuid : nat -> string)
    (generateYAMLConfigs : NetworkConfig -> Thrown + YAMLConfig)
    (validateNetworkConfig : NetworkConfig -> list ValidationResult)
    (es : list Event) (k : nat) :
  let r := run uuid generateYAMLConfigs validateNetworkConfig es initialState k in
  handle uuid generateYAMLConfigs validateNetworkConfig AddOrganization
         (fst r) (snd r)
  = (showNotification "Organization name is required" n_error (fst r), snd r).
Proof.
  cbv zeta. cbn [handle]. unfold addOrganization.
  rewrite (run_newOrgName uuid generateYAMLConfigs validateNetworkConfig
             es initialState k eq_refl).
  reflexivity.
Qed.

(* ------------------------------------------------------------------ *)
(** ** Deleting, and adding again *)

Lemma filter_all {A : Type} (p : A -> bool) (l : list A) :
  (forall a, In a l -> p a = true) -> filter p l = l.
Proof.
  intros H. induction l as [|a l IH]; simpl; [reflexivity|].
  rewrite (H a (or_introl eq_refl)). f_equal. apply IH.
  intros b Hb. apply H. now right.
Qed.

Lemma withOrganizations_same (c : NetworkConfig) :
  withOrganizations (organizations c) c = c.
Proof. destruct c; reflexivity. Qed.

Lemma withOrderers_same (c : NetworkConfig) :
  withOrderers (orderers c) c = c.
Proof. destruct c; reflexivity. Qed.

Lemma withPeers_same (o : Organization) : withPeers (peers o) o = o.
Proof. destruct o; reflexivity. Qed.

(** X3: when organization ids are pairwise distinct, deleteOrganization
    called with the id of an organization of the topology removes that
    organization and nothing else: the organization list becomes the
    organizations before it followed by those after it, and the orderers
    and network-level fields are unchanged. *)
Theorem deleteOrganization_removes_one
    (s : State) (l1 l2 : list Organization) (o : Organization) :
  organizations (config s) = l1 ++ o :: l2 ->
  NoDup (orgIds (config s)) ->
  let c' := config (deleteOrganization (org_id o) s) in
  organizations c' = l1 ++ l2 /\
  orderers c' = orderers (config s) /\
  channelName c' = channelName (config s) /\
  consortium c' = consortium (config s) /\
  networkVersion c' = networkVersion (config s) /\
  template c' = template (config s) /\
  stateDatabase c' = stateDatabase (config s).
Proof.
  intros Horgs Hn. cbv zeta. unfold orgIds in Hn. rewrite Horgs in Hn.
  cbn [deleteOrganization config showNotification setNotification updateConfig
       setConfig withOrganizations organizations orderers channelName
       consortium networkVersion template stateDatabase].
  split; [| repeat split].
  rewrite Horgs, filter_app. cbn [filter].
  rewrite String.eqb_refl. cbn [negb].
  rewrite map_app in Hn. cbn [map] in Hn.
  f_equal; apply filter_all; intros a Ha; apply negb_true_iff;
    apply String.eqb_neq; intros E.
  - apply (NoDup_app_disjoint _ _ (org_id a) Hn).
    + now apply in_map.
    + left. now symmetry.
  - apply NoDup_app_remove_l in Hn. inversion Hn as [|? ? Hnotin _]; subst.
    apply Hnotin. rewrite <- E. now apply in_map.
Qed.

Lemma deleteOrganization_removes_one_witness :
  let s := fst (applyTemplate uuid0 twoOrganizationRaft initialState 0%nat) in
  let c' := config (deleteOrganization "uuid-3" s) in
  organizations c' = firstn 1 (organizations (config s)) ++ [] /\
  orderers c' = orderers (config s) /\
  channelName c' = channelName (config s) /\
  consortium c' = consortium (config s) /\
  networkVersion c' = networkVersion (config s) /\
  template c' = template (config s) /\
  stateDatabase c' = stateDatabase (config s).
Proof.
  intros s.
  apply (deleteOrganization_removes_one s
           (firstn 1 (organizations (config s))) []
           (nth 1 (organizations (config s)) legacyOrg)).
  - reflexivity.
  - cbn. constructor; [intros [H | []]; discriminate H |].
    constructor; [intros [] | constructor].
Defined.

(** X4: adding a peer and then deleting the peer just minted restores the
    topology, provided the minted identity is not already the id of a peer
    of an organization with the given id. It holds whether or not an
    organization with that id exists. *)
Theorem addPeer_deletePeer_roundtrip
    (uuid : nat -> string) (orgId : string) (s : State) (k : nat) :
  (forall o, In o (organizations (config s)) -> org_id o = orgId ->
             ~ In (uuid k) (map peer_id (peers o))) ->
  config (deletePeer orgId (uuid k) (fst (addPeer uuid orgId s k))) = config s.
Proof.
  intros Hfresh.
  assert (Hkeep : forall o, In o (organizations (config s)) ->
            org_id o = orgId ->
            filter (fun peer => negb (peer_id peer =? uuid k)%string) (peers o)
            = peers o).
  { intros o Hin Hid. apply filter_all. intros p Hp.
    apply negb_true_iff, String.eqb_neq. intros E.
    apply (Hfresh o Hin Hid). rewrite <- E. now apply in_map. }
  transitivity (withOrganizations (organizations (config s)) (config s));
    [| apply withOrganizations_same].
  unfold addPeer.
  destruct (find (fun o => (org_id o =? orgId)%string) (organizations (config s)))
    as [org|]; cbn [ret bind randomUUID newPeer fst deletePeer config
                    showNotification setNotification updateConfig setConfig].
  - cbn [withOrganizations organizations orderers channelName consortium
         networkVersion template stateDatabase].
    unfold withOrganizations. f_equal.
    rewrite map_map. rewrite <- (map_id (organizations (config s))) at 2.
    apply map_ext_in. intros o Hin.
    destruct (org_id o =? orgId)%string eqn:E.
    + cbn [org_id withPeers]. rewrite E. cbn [peers withPeers].
      rewrite filter_app. cbn [filter peer_id]. rewrite String.eqb_refl.
      cbn [negb]. rewrite app_nil_r.
      apply String.eqb_eq in E. rewrite (Hkeep o Hin E).
      destruct o; reflexivity.
    + rewrite E. reflexivity.
  - f_equal. rewrite <- (map_id (organizations (config s))) at 2.
    apply map_ext_in. intros o Hin.
    destruct (org_id o =? orgId)%string eqn:E; [| reflexivity].
    apply String.eqb_eq in E. rewrite (Hkeep o Hin E). apply withPeers_same.
Qed.

Lemma addPeer_deletePeer_roundtrip_witness :
  config (deletePeer "org-a" (uuid0 5) (fst (addPeer uuid0 "org-a" legacyState 5%nat)))
  = config legacyState.
Proof.
  apply (addPeer_deletePeer_roundtrip uuid0 "org-a" legacyState 5%nat).
  intros o [<- | []] _ [H | []]. discriminate H.
Defined.

(* ------------------------------------------------------------------ *)
(** ** Orderer ports *)

Lemma addOrderers_orderers (uuid : nat -> string) (n : nat) (s : State) (k : nat) :
  orderers (config (fst (addOrderers uuid n s k)))
  = orderers (config s)
    ++ map (fun i => fst (newOrderer uuid (length (orderers (config s)) + i)%nat
                                     (k + i)%nat))
           (seq 0 n).
Proof.
  revert s k. induction n as [|n IH]; intros s k.
  - cbn. now rewrite app_nil_r.
  - cbn [addOrderers]. unfold bind.
    replace (addOrderer uuid s k)
      with (showNotification
              ("Orderer " ++ orderer_name (fst (newOrderer uuid (length (orderers (config s))) k))
               ++ " added successfully") n_success
              (updateConfig
                 (fun prev => withOrderers
                    (orderers prev
                     ++ [fst (newOrderer uuid (length (orderers (config s))) k)])
                    prev) s), S k) by reflexivity.
    rewrite IH.
    cbn [config showNotification setNotification updateConfig setConfig
         orderers withOrderers].
    rewrite <- app_assoc. f_equal. rewrite length_app. cbn [length app].
    cbn [seq map]. rewrite <- seq_shift, map_map.
    rewrite !Nat.add_0_r. f_equal. apply map_ext. intros i.
    f_equal. f_equal; lia.
Qed.

(** X5: starting from a topology without orderers, n calls of addOrderer
    give the orderers the ports 7050, 7051, ..., 7050+n-1 in order, which
    are pairwise distinct. *)
Theorem addOrderers_ports_distinct
    (uuid : nat -> string) (n : nat) (s : State) (k : nat) :
  orderers (config s) = [] ->
  let c := config (fst (addOrderers uuid n s k)) in
  map orderer_port (orderers c)
  = map (fun i => 7050 + Z.of_nat i) (seq 0 n) /\
  NoDup (map orderer_port (orderers c)).
Proof.
  intros Hempty. cbv zeta.
  assert (E : map orderer_port (orderers (config (fst (addOrderers uuid n s k))))
              = map (fun i => 7050 + Z.of_nat i) (seq 0 n)).
  { rewrite addOrderers_orderers, Hempty. cbn [app length].
    rewrite map_map. apply map_ext. intros i. reflexivity. }
  split; [exact E|]. rewrite E. apply NoDup_offsets.
Qed.

Lemma addOrderers_ports_distinct_witness :
  let c := config (fst (addOrderers uuid0 3 initialState 0%nat)) in
  map orderer_port (orderers c)
  = map (fun i => 7050 + Z.of_nat i) (seq 0 3) /\
  NoDup (map orderer_port (orderers c)).
Proof.
  apply (addOrderers_ports_distinct uuid0 3 initialState 0%nat). reflexivity.
Defined.

(** X6: deleting an orderer that is not the last and then adding an
    orderer reuses a port. When the last orderer sits at the port of its
    position (7050 + its index) and the deleted id belongs to one orderer
    only, the orderer addOrderer appends afterwards gets the port of that
    last orderer, so the orderer ports are no longer pairwise distinct. *)
Theorem deleteOrderer_addOrderer_reuses_port
    (uuid : nat -> string) (s : State) (k : nat)
    (l1 l2 : list Orderer) (o z : Orderer) :
  orderers (config s) = l1 ++ o :: l2 ++ [z] ->
  (forall o', In o' (l1 ++ l2 ++ [z]) -> orderer_id o' <> orderer_id o) ->
  orderer_port z = 7050 + Z.of_nat (length (l1 ++ o :: l2)) ->
  let s' := fst (addOrderer uuid (deleteOrderer (orderer_id o) s) k) in
  exists added,
    orderers (config s') = l1 ++ l2 ++ [z; added] /\
    orderer_port added = orderer_port z /\
    ~ NoDup (map orderer_port (orderers (config s'))).
Proof.
  intros Hords Hids Hport. cbv zeta.
  assert (Hdel : orderers (config (deleteOrderer (orderer_id o) s))
                 = l1 ++ l2 ++ [z]).
  { cbn [deleteOrderer config showNotification setNotification updateConfig
         setConfig orderers withOrderers].
    rewrite Hords, filter_app. cbn [filter]. rewrite String.eqb_refl. cbn [negb].
    rewrite <- filter_app. apply filter_all. intros a Ha.
    apply negb_true_iff, String.eqb_neq. now apply Hids. }
  exists (fst (newOrderer uuid (length (l1 ++ l2 ++ [z])) k)).
  assert (Hadd : orderers (config (fst (addOrderer uuid
                                          (deleteOrderer (orderer_id o) s) k)))
                 = l1 ++ l2 ++ [z; fst (newOrderer uuid (length (l1 ++ l2 ++ [z])) k)]).
  { change (orderers (config (fst (addOrderer uuid
                                     (deleteOrderer (orderer_id o) s) k))))
      with (orderers (config (deleteOrderer (orderer_id o) s))
            ++ [fst (newOrderer uuid
                       (length (orderers (config (deleteOrderer (orderer_id o) s))))
                       k)]).
    rewrite Hdel. now rewrite <- !app_assoc. }
  assert (Hsame : orderer_port (fst (newOrderer uuid (length (l1 ++ l2 ++ [z])) k))
                  = orderer_port z).
  { rewrite Hport. cbn [newOrderer bind randomUUID ret fst orderer_port].
    f_equal. f_equal. repeat (rewrite ?length_app; cbn [length]). lia. }
  split; [exact Hadd|]. split; [exact Hsame|].
  rewrite Hadd, !map_app. cbn [map]. rewrite Hsame. intros Hn.
  apply NoDup_app_remove_l in Hn. apply NoDup_app_remove_l in Hn.
  inversion Hn as [|? ? Hnotin _]; subst. apply Hnotin. now left.
Qed.

Lemma deleteOrderer_addOrderer_reuses_port_witness :
  let s := fst (addOrderers uuid0 3 initialState 0%nat) in
  let s' := fst (addOrderer uuid0 (deleteOrderer "uuid-0" s) 3%nat) in
  exists added,
    orderers (config s')
    = [] ++ [fst (newOrderer uuid0 1 1%nat)]
         ++ [fst (newOrderer uuid0 2 2%nat); added] /\
    orderer_port added = orderer_port (fst (newOrderer uuid0 2 2%nat)) /\
    ~ NoDup (map orderer_port (orderers (config s'))).
Proof.
  apply (deleteOrderer_addOrderer_reuses_port uuid0
           (fst (addOrderers uuid0 3 initialState 0%nat)) 3%nat
           [] [fst (newOrderer uuid0 1 1%nat)]
           (fst (newOrderer uuid0 0 0%nat)) (fst (newOrderer uuid0 2 2%nat))).
  - reflexivity.
  - intros o' [<- | [<- | []]]; discriminate.
  - reflexivity.
Defined.

(* ------------------------------------------------------------------ *)
(** ** The diagram *)

Module NV := NetworkVisualizer.

Lemma mapiFrom_map_seq {A B C : Type} (f : nat -> A -> B) (h : B -> C)
                       (g : nat -> C) (l : list A) (i : nat) :
  (forall j a, h (f j a) = g j) ->
  map h (NV.mapiFrom f i l) = map g (seq i (length l)).
Proof.
  intros H. revert i. induction l as [|a l IH]; intros i; simpl;
    [reflexivity|]. now rewrite H, IH.
Qed.

Lemma mapiFrom_map {A B C : Type} (f : nat -> A -> B) (h : B -> C)
                   (g : A -> C) (l : list A) (i : nat) :
  (forall j a, h (f j a) = g a) ->
  map h (NV.mapiFrom f i l) = map g l.
Proof.
  intros H. revert i. induction l as [|a l IH]; intros i; simpl;
    [reflexivity|]. now rewrite H, IH.
Qed.

Lemma mapiFrom_length {A B : Type} (f : nat -> A -> B) (l : list A) (i : nat) :
  length (NV.mapiFrom f i l) = length l.
Proof.
  revert i. induction l as [|a l IH]; intros i; simpl; [reflexivity|].
  now rewrite IH.
Qed.

(** The node ids the loop over the organizations produces do not depend
    on the running offset. *)
Lemma visitOrganizations_ids (yOffset : Z) (orgs : list Organization) :
  map NV.node_id (fst (NV.visitOrganizations yOffset orgs))
  = flat_map (fun o => ("org-" ++ org_id o)%string
                       :: map (fun p => ("peer-" ++ peer_id p)%string) (peers o))
             orgs.
Proof.
  revert yOffset. induction orgs as [|o orgs IH]; intros yOffset;
    [reflexivity|].
  cbn [NV.visitOrganizations flat_map].
  specialize (IH (yOffset + Z.max (Z.of_nat (length (peers o)) * 100) 150)).
  destruct (NV.visitOrganizations _ orgs) as [ns es].
  cbn [fst map] in *. rewrite map_app, IH.
  rewrite (mapiFrom_map (NV.peerNode yOffset) NV.node_id
             (fun p => ("peer-" ++ peer_id p)%string)) by reflexivity.
  reflexivity.
Qed.

Lemma visitOrganizations_lengths (yOffset : Z) (orgs : list Organization) :
  length (fst (NV.visitOrganizations yOffset orgs))
  = (length orgs + length (flat_map peers orgs))%nat /\
  length (snd (NV.visitOrganizations yOffset orgs))
  = length (flat_map peers orgs).
Proof.
  revert yOffset. induction orgs as [|o orgs IH]; intros yOffset;
    [split; reflexivity|].
  cbn [NV.visitOrganizations flat_map].
  specialize (IH (yOffset + Z.max (Z.of_nat (length (peers o)) * 100) 150)).
  destruct (NV.visitOrganizations _ orgs) as [ns es].
  cbn [fst snd length] in *. destruct IH as [IH1 IH2].
  rewrite !length_app, length_map, mapiFrom_length, IH1, IH2. split; lia.
Qed.

Lemma visitOrganizations_edges (yOffset : Z) (orgs : list Organization)
                               (e : NV.Edge) :
  In e (snd (NV.visitOrganizations yOffset orgs)) ->
  exists o p, In o orgs /\ In p (peers o) /\
              NV.source e = ("org-" ++ org_id o)%string /\
              NV.target e = ("peer-" ++ peer_id p)%string.
Proof.
  revert yOffset. induction orgs as [|o orgs IH]; intros yOffset; [intros []|].
  cbn [NV.visitOrganizations].
  specialize (IH (yOffset + Z.max (Z.of_nat (length (peers o)) * 100) 150)).
  destruct (NV.visitOrganizations _ orgs) as [ns es].
  cbn [snd] in *. intros Hin. apply in_app_or in Hin. destruct Hin as [Hin | Hin].
  - apply in_map_iff in Hin. destruct Hin as (pn & <- & Hpn).
    assert (Hid : In (NV.node_id pn)
                     (map (fun p => ("peer-" ++ peer_id p)%string) (peers o))).
    { rewrite <- (mapiFrom_map (NV.peerNode yOffset) NV.node_id _ (peers o) 0%nat)
        by reflexivity. now apply in_map. }
    apply in_map_iff in Hid. destruct Hid as (p & Hp & Hin).
    exists o, p. repeat split; [now left | exact Hin | now symmetry].
  - destruct (IH Hin) as (o' & p & Ho & Hp & Hs & Ht).
    exists o', p. repeat split; [now right | exact Hp | exact Hs | exact Ht].
Qed.

(** X7: the diagram built from a topology has one node per organization,
    peer and orderer, one edge per peer and one per pair of an
    organization and an orderer, and no dangling edge: the source and the
    target of every edge are ids of nodes of the diagram. *)
Theorem buildGraph_edges_connect_nodes (config : NetworkConfig) :
  let ns := fst (NV.buildGraph config) in
  let es := snd (NV.buildGraph config) in
  let peerCount := length (flat_map peers (organizations config)) in
  length ns
  = (length (organizations config) + peerCount + length (orderers config))%nat /\
  length es
  = (peerCount + length (orderers config) * length (organizations config))%nat /\
  (forall e, In e es ->
     In (NV.source e) (map NV.node_id ns) /\
     In (NV.target e) (map NV.node_id ns)).
Proof.
  cbv zeta. unfold NV.buildGraph.
  pose proof (visitOrganizations_ids 0 (organizations config)) as Hids.
  pose proof (visitOrganizations_lengths 0 (organizations config)) as [Hl1 Hl2].
  pose proof (visitOrganizations_edges 0 (organizations config)) as Hedges.
  destruct (NV.visitOrganizations 0 (organizations config)) as [ns es].
  cbn [fst snd] in *. split; [| split].
  - rewrite length_app, mapiFrom_length, Hl1. lia.
  - rewrite length_app, Hl2. f_equal.
    induction (orderers config) as [|r rs IH]; [reflexivity|].
    cbn [flat_map length]. rewrite length_app, length_map, IH. lia.
  - intros e Hin. rewrite map_app, Hids.
    rewrite (mapiFrom_map NV.ordererNode NV.node_id
               (fun r => ("orderer-" ++ orderer_id r)%string)) by reflexivity.
    apply in_app_or in Hin. destruct Hin as [Hin | Hin].
    + destruct (Hedges e Hin) as (o & p & Ho & Hp & -> & ->).
      split; apply in_or_app; left; apply in_flat_map; exists o;
        (split; [exact Ho|]).
      * now left.
      * right. apply in_map_iff. exists p. now split.
    + apply in_flat_map in Hin. destruct Hin as (r & Hr & Hin).
      apply in_map_iff in Hin. destruct Hin as (o & <- & Ho).
      cbn [NV.source NV.target NV.ordererEdge]. split; apply in_or_app.
      * left. apply in_flat_map. exists o. split; [exact Ho | now left].
      * right. apply in_map_iff. exists r. now split.
Qed.

Lemma NoDup_map_injective_on {A B : Type} (f : A -> B) (l : list A) :
  (forall a b, In a l -> In b l -> f a = f b -> a = b) ->
  NoDup l -> NoDup (map f l).
Proof.
  induction l as [|a l IH]; intros Hinj Hn; simpl; [constructor|].
  inversion Hn as [|? ? Hnotin Hn']; subst. constructor.
  - rewrite in_map_iff. intros (b & E & Hb). apply Hnotin.
    rewrite (Hinj a b); auto; [now left | now right].
  - apply IH; [| exact Hn']. intros x y Hx Hy. apply Hinj; now right.
Qed.

Lemma map_flat_map {A B C : Type} (h : B -> C) (f : A -> list B) (l : list A) :
  map h (flat_map f l) = flat_map (fun a => map h (f a)) l.
Proof.
  induction l as [|a l IH]; simpl; [reflexivity|]. now rewrite map_app, IH.
Qed.

(** X8: when the identities of a topology are pairwise distinct, so are
    the node ids of its diagram. *)
Theorem buildGraph_node_ids_distinct (config : NetworkConfig) :
  NoDup (identities config) ->
  NoDup (map NV.node_id (fst (NV.buildGraph config))).
Proof.
  intros Hn.
  set (tagged :=
         flat_map (fun o => ("org-", org_id o)
                            :: map (fun p => ("peer-", peer_id p)) (peers o))
                  (organizations config)
         ++ map (fun r => ("orderer-", orderer_id r)) (orderers config)).
  assert (Hsnd : map snd tagged = identities config).
  { unfold tagged, identities. rewrite map_app, map_flat_map, map_map. f_equal.
    apply flat_map_ext. intros o. cbn [map snd]. now rewrite map_map. }
  assert (Hids : map NV.node_id (fst (NV.buildGraph config))
                 = map (fun t => (fst t ++ snd t)%string) tagged).
  { unfold NV.buildGraph.
    pose proof (visitOrganizations_ids 0 (organizations config)) as Hv.
    destruct (NV.visitOrganizations 0 (organizations config)) as [ns es].
    cbn [fst] in *. rewrite map_app, Hv.
    rewrite (mapiFrom_map NV.ordererNode NV.node_id
               (fun r => ("orderer-" ++ orderer_id r)%string)) by reflexivity.
    unfold tagged. rewrite map_app, map_flat_map, map_map. f_equal.
    apply flat_map_ext. intros o. cbn [map fst snd]. now rewrite map_map. }
  assert (Htags : forall t, In t tagged ->
            fst t = "org-" \/ fst t = "peer-" \/ fst t = "orderer-").
  { intros t Hin. unfold tagged in Hin. apply in_app_or in Hin.
    destruct Hin as [Hin | Hin].
    - apply in_flat_map in Hin. destruct Hin as (o & _ & [<- | Hin]);
        [now left|].
      apply in_map_iff in Hin. destruct Hin as (p & <- & _). right. now left.
    - apply in_map_iff in Hin. destruct Hin as (r & <- & _). right. now right. }
  rewrite Hids. apply NoDup_map_injective_on.
  - intros [p1 i1] [p2 i2] H1 H2 E. cbn [fst snd] in E.
    destruct (Htags _ H1) as [T1 | [T1 | T1]];
      destruct (Htags _ H2) as [T2 | [T2 | T2]];
      cbn [fst] in T1, T2; subst p1 p2; cbn [append] in E;
      try discriminate E; injection E as ->; reflexivity.
  - apply (NoDup_map_inv snd). rewrite Hsnd. exact Hn.
Qed.

Lemma buildGraph_node_ids_distinct_witness :
  NoDup (map NV.node_id
           (fst (NV.buildGraph
                   (config (fst (run uuid0 (compile sampleRender)
                                     Validator.validateNetworkConfig
                                     sampleSession initialState 0%nat)))))).
Proof.
  apply buildGraph_node_ids_distinct.
  apply (run_minted uuid0 (compile sampleRender) Validator.validateNetworkConfig
           uuid0_injective sampleSession initialState 0%nat).
  split; [constructor | intros id []].
Defined.

(** Where the loop over the organizations puts its nodes: in the columns
    200 and 500, at or below the running offset, no two at one place. *)
Lemma visitOrganizations_positions (yOffset : Z) (orgs : list Organization) :
  NoDup (map NV.position (fst (NV.visitOrganizations yOffset orgs))) /\
  (forall n, In n (fst (NV.visitOrganizations yOffset orgs)) ->
             (NV.x n = 200 \/ NV.x n = 500) /\ yOffset <= NV.y n).
Proof.
  revert yOffset. induction orgs as [|o orgs IH]; intros yOffset.
  { split; [constructor | intros n []]. }
  cbn [NV.visitOrganizations].
  specialize (IH (yOffset + Z.max (Z.of_nat (length (peers o)) * 100) 150)).
  destruct (NV.visitOrganizations _ orgs) as [ns es].
  cbn [fst] in *. destruct IH as [IHn IHb].
  assert (Hpeers : map NV.position (NV.mapiFrom (NV.peerNode yOffset) 0 (peers o))
                   = map (fun i => (500, yOffset + Z.of_nat i * 100))
                         (seq 0 (length (peers o)))).
  { apply mapiFrom_map_seq. reflexivity. }
  split.
  - cbn [map]. rewrite map_app, Hpeers. constructor.
    + intros Hin. apply in_app_or in Hin. destruct Hin as [Hin | Hin].
      * apply in_map_iff in Hin. destruct Hin as (i & E & _). discriminate E.
      * apply in_map_iff in Hin. destruct Hin as (n & E & Hn).
        destruct (IHb n Hn) as [_ Hy]. unfold NV.position in E.
        injection E as _ Ey. cbn [NV.orgNode NV.y] in Ey. lia.
    + apply NoDup_app.
      * apply NoDup_map_injective_on; [| apply seq_NoDup].
        intros a b _ _ E. injection E as E. lia.
      * exact IHn.
      * intros a Ha Hb. apply in_map_iff in Ha. destruct Ha as (i & <- & Hi).
        apply in_seq in Hi. apply in_map_iff in Hb.
        destruct Hb as (n & E & Hn). destruct (IHb n Hn) as [_ Hy].
        unfold NV.position in E. injection E as _ Ey. lia.
  - intros n [<- | Hin].
    + cbn. split; [now left | lia].
    + apply in_app_or in Hin. destruct Hin as [Hin | Hin].
      * assert (Hp : In (NV.position n)
                        (map (fun i => (500, yOffset + Z.of_nat i * 100))
                             (seq 0 (length (peers o))))).
        { rewrite <- Hpeers. now apply in_map. }
        apply in_map_iff in Hp. destruct Hp as (i & E & _).
        unfold NV.position in E. injection E as Ex Ey. split; [now right | lia].
      * destruct (IHb n Hin) as [Hx Hy]. split; [exact Hx | lia].
Qed.

(** X9: whatever the topology, no two nodes of its diagram are placed at
    the same position. *)
Theorem buildGraph_positions_distinct (config : NetworkConfig) :
  NoDup (map NV.position (fst (NV.buildGraph config))).
Proof.
  unfold NV.buildGraph.
  pose proof (visitOrganizations_positions 0 (organizations config)) as [Hn Hb].
  destruct (NV.visitOrganizations 0 (organizations config)) as [ns es].
  cbn [fst] in *. rewrite map_app.
  rewrite (mapiFrom_map_seq NV.ordererNode NV.position
             (fun i => (800, 100 + Z.of_nat i * 100))) by reflexivity.
  apply NoDup_app.
  - exact Hn.
  - apply NoDup_map_injective_on; [| apply seq_NoDup].
    intros a b _ _ E. apply (f_equal snd) in E. cbn [snd] in E. lia.
  - intros a Ha Hb'. apply in_map_iff in Ha. destruct Ha as (n & <- & Hin).
    destruct (Hb n Hin) as [Hx _]. apply in_map_iff in Hb'.
    destruct Hb' as (i & E & _). unfold NV.position in E.
    apply (f_equal fst) in E. cbn [fst] in E. lia.
Qed.

(* ------------------------------------------------------------------ *)
(** ** Clicking a node of the diagram *)

Lemma split_firstSegment (s : string) :
  exists rest, NV.split "-" s = NV.firstSegment s :: rest.
Proof.
  induction s as [|c s [rest IH]]; [now exists []|].
  cbn [NV.split NV.firstSegment].
  destruct (Ascii.eqb c "-").
  - now exists (NV.split "-" s).
  - rewrite IH. now exists rest.
Qed.

Lemma firstSegment_whole (s : string) :
  NV.firstSegment s = s <-> NV.hasHyphen s = false.
Proof.
  induction s as [|c s IH]; cbn [NV.firstSegment NV.hasHyphen];
    [split; reflexivity|].
  destruct (Ascii.eqb c "-"); cbn [orb].
  - split; discriminate.
  - rewrite <- IH. split; [now intros [= ->] | now intros ->].
Qed.

(** X10: a click on a node of the diagram reports the node's kind and the
    part of the entity's id that precedes its first hyphen (the node id is
    split at every hyphen and only the first two segments are read). The
    dashboard then opens the editor for that truncated id, which is the
    entity's id exactly when the id holds no hyphen. *)
Theorem node_click_truncates_id (s : State) :
  (forall org yOffset,
      NV.handleNodeClick (NV.orgNode org yOffset)
      = Some (NV.firstSegment (org_id org), "org") /\
      editingOrg (handleNodeClick (NV.firstSegment (org_id org)) "org" s)
      = Some (NV.firstSegment (org_id org))) /\
  (forall orderer index,
      NV.handleNodeClick (NV.ordererNode index orderer)
      = Some (NV.firstSegment (orderer_id orderer), "orderer") /\
      editingOrderer (handleNodeClick (NV.firstSegment (orderer_id orderer))
                                      "orderer" s)
      = Some (NV.firstSegment (orderer_id orderer))) /\
  (forall peer yOffset peerIndex,
      NV.handleNodeClick (NV.peerNode yOffset peerIndex peer)
      = Some (NV.firstSegment (peer_id peer), "peer")) /\
  (forall id, NV.firstSegment id = id <-> NV.hasHyphen id = false).
Proof.
  split; [| split; [| split]].
  - intros org yOffset. split; [| reflexivity].
    unfold NV.handleNodeClick. cbn [NV.node_id NV.orgNode].
    destruct (split_firstSegment (org_id org)) as [rest E].
    cbn. rewrite E. reflexivity.
  - intros orderer index. split; [| reflexivity].
    unfold NV.handleNodeClick. cbn [NV.node_id NV.ordererNode].
    destruct (split_firstSegment (orderer_id orderer)) as [rest E].
    cbn. rewrite E. reflexivity.
  - intros peer yOffset peerIndex.
    unfold NV.handleNodeClick. cbn [NV.node_id NV.peerNode].
    destruct (split_firstSegment (peer_id peer)) as [rest E].
    cbn. rewrite E. reflexivity.
  - apply firstSegment_whole.
Qed.

Lemma handleNodeClick_peerNode (peer : Peer) (yOffset : Z) (peerIndex : nat) :
  NV.handleNodeClick (NV.peerNode yOffset peerIndex peer)
  = Some (NV.firstSegment (peer_id peer), "peer").
Proof.
  unfold NV.handleNodeClick. cbn [NV.node_id NV.peerNode].
  destruct (split_firstSegment (peer_id peer)) as [rest E].
  cbn. rewrite E. reflexivity.
Qed.

(** X11: a click on the node of a peer looks the peer up under the
    truncated id. When no peer of the topology has the truncated id as its
    id, the click changes nothing: the peer editor is not opened. *)
Theorem peer_node_click_ignored
    (s : State) (peer : Peer) (yOffset : Z) (peerIndex : nat) :
  (forall o p, In o (organizations (config s)) -> In p (peers o) ->
               peer_id p <> NV.firstSegment (peer_id peer)) ->
  match NV.handleNodeClick (NV.peerNode yOffset peerIndex peer) with
  | Some (id, type) => handleNodeClick id type s = s
  | None => False
  end.
Proof.
  intros Hnone. rewrite handleNodeClick_peerNode.
  unfold handleNodeClick. cbn [String.eqb Ascii.eqb Bool.eqb].
  destruct (find _ (organizations (config s))) as [org|] eqn:Hfind;
    [| reflexivity].
  exfalso. apply find_some in Hfind. destruct Hfind as [Hin Hex].
  apply existsb_exists in Hex. destruct Hex as (p & Hp & E).
  apply String.eqb_eq in E. exact (Hnone org p Hin Hp E).
Qed.

Lemma peer_node_click_ignored_witness :
  let s := fst (applyTemplate uuid4 twoOrganizationRaft initialState 0%nat) in
  match NV.handleNodeClick
          (NV.peerNode 0 0 (fst (newPeer uuid4 0 1%nat))) with
  | Some (id, type) => handleNodeClick id type s = s
  | None => False
  end.
Proof.
  apply (peer_node_click_ignored
           (fst (applyTemplate uuid4 twoOrganizationRaft initialState 0%nat))
           (fst (newPeer uuid4 0 1%nat)) 0 0%nat).
  intros o p [<- | [<- | []]] [<- | [<- | []]]; discriminate.
Defined.

(* ------------------------------------------------------------------ *)
(** ** The animation of a transaction *)

Module Sim := Simulation.

Lemma filter_filter {A : Type} (p q : A -> bool) (l : list A) :
  filter p (filter q l) = filter (fun a => q a && p a) l.
Proof.
  induction l as [|a l IH]; simpl; [reflexivity|].
  destruct (q a); simpl; [destruct (p a)|]; now rewrite IH.
Qed.

Lemma filter_none {A : Type} (p : A -> bool) (l : list A) :
  (forall a, In a l -> p a = false) -> filter p l = [].
Proof.
  intros H. induction l as [|a l IH]; simpl; [reflexivity|].
  rewrite (H a (or_introl eq_refl)). apply IH. intros b Hb. apply H. now right.
Qed.

Lemma inStep_self (es : list Sim.Edge) (e : Sim.Edge) :
  In e es -> Sim.inStep es e = true.
Proof.
  intros Hin. unfold Sim.inStep. apply existsb_exists.
  exists e. split; [exact Hin | apply String.eqb_refl].
Qed.

(** One turn of the loop leaves the edges that do not share an id with an
    edge of the step. *)
Lemma showStep_hideStep_edges (step : string * list Sim.Edge) (c : Sim.Component) :
  Sim.edges (Sim.hideStep step (Sim.showStep step c))
  = filter (fun e => negb (Sim.inStep (snd step) e)) (Sim.edges c).
Proof.
  cbn [Sim.hideStep Sim.showStep Sim.edges Sim.setEdges Sim.setSimulationStatus].
  rewrite filter_app, (filter_none _ (snd step)), app_nil_r; [reflexivity|].
  intros e Hin. now rewrite inStep_self.
Qed.

Lemma runSteps_edges (ss : list (string * list Sim.Edge)) (c : Sim.Component) :
  Sim.edges (Sim.runSteps ss c)
  = filter (fun e => negb (Sim.inStep (flat_map snd ss) e)) (Sim.edges c).
Proof.
  revert c. induction ss as [|step ss IH]; intros c.
  - cbn. symmetry. apply filter_all. reflexivity.
  - cbn [Sim.runSteps flat_map]. rewrite IH, showStep_hideStep_edges, filter_filter.
    apply filter_ext. intros e. unfold Sim.inStep.
    rewrite existsb_app, negb_orb. reflexivity.
Qed.

Lemma runSteps_frame (ss : list (string * list Sim.Edge)) (c : Sim.Component) :
  Sim.state (Sim.runSteps ss c) = Sim.state c /\
  Sim.nodes (Sim.runSteps ss c) = Sim.nodes c /\
  Sim.newTransaction (Sim.runSteps ss c) = Sim.newTransaction c.
Proof.
  revert c. induction ss as [|step ss IH]; intros c; [repeat split|].
  cbn [Sim.runSteps]. destruct (IH (Sim.hideStep step (Sim.showStep step c)))
    as (H1 & H2 & H3).
  rewrite H1, H2, H3. repeat split.
Qed.

(** X12: an animation that runs to its end undisturbed removes every edge
    it showed on the way, together with any earlier edge that shares an id
    with one of them, and adds exactly one permanent edge, from the sender
    to the receiver. The ledger state and the nodes are untouched. The
    edges set at mount and the permanent edges of any transaction never
    share an id with a shown edge, so they are kept. *)
Theorem flow_leaves_one_permanent_edge
    (transaction : Sim.Transaction) (c : Sim.Component) :
  let c' := Sim.simulateTransactionFlow transaction c in
  Sim.edges c'
  = filter (fun e => negb (Sim.inStep (Sim.transientEdges transaction) e))
           (Sim.edges c)
    ++ [Sim.finalEdge transaction] /\
  Sim.simulationStatus c' = "Transaction completed successfully" /\
  Sim.state c' = Sim.state c /\
  Sim.nodes c' = Sim.nodes c /\
  (forall other,
      Sim.inStep (Sim.transientEdges transaction) (Sim.finalEdge other) = false) /\
  (forall e, In e Sim.initialEdges ->
      Sim.inStep (Sim.transientEdges transaction) e = false).
Proof.
  cbv zeta. unfold Sim.simulateTransactionFlow.
  destruct (runSteps_frame (Sim.steps transaction) c) as (Hs & Hn & _).
  cbn [Sim.edges Sim.setEdges Sim.setSimulationStatus Sim.simulationStatus
       Sim.state Sim.nodes].
  rewrite runSteps_edges.
  split; [reflexivity|]. split; [reflexivity|].
  split; [exact Hs|]. split; [exact Hn|]. split.
  - intros other. reflexivity.
  - intros e [<- | [<- | [<- | [<- | []]]]]; reflexivity.
Qed.

(* ------------------------------------------------------------------ *)
(** ** The ledger of the simulation *)




Section LedgerFacts.

Variable generateHash : string -> string.
Variable stringify : list Sim.Transaction -> string.

Lemma beginTransaction_state (now1 now2 : Z) (c c1 : Sim.Component)
                             (p : Sim.Pending) :
  Sim.beginTransaction generateHash now1 now2 c = Some (c1, p) ->
  Sim.closed_state p = Sim.state c /\
  Sim.blocks (Sim.state c1) = Sim.blocks (Sim.state c) /\
  Sim.currentBlockHeight (Sim.state c1) = Sim.currentBlockHeight (Sim.state c) /\
  Sim.transactions (Sim.state c1)
  = Sim.transactions (Sim.state c) ++ [Sim.pending_transaction p] /\
  Sim.blockHeight (Sim.pending_transaction p)
  = Sim.currentBlockHeight (Sim.state c) + 1 /\
  Sim.tx_status (Sim.pending_transaction p) = Sim.tx_pending.
Proof.
  unfold Sim.beginTransaction.
  destruct (negb _ || negb _); [discriminate|].
  intros [= <- <-]. repeat split.
Qed.

End LedgerFacts.


Section CommitFacts.

Variable generateHash : string -> string.
Variable stringify : list Sim.Transaction -> string.


End CommitFacts.



(** X14: two submissions that overlap (the second starts before the
    animation of the first is over) produce two blocks with the same
    height and the same previous hash, because each block is created from
    the ledger state its handler closed over. The current height still
    advances by two, so it no longer is the height of the last block. *)
Theorem overlapping_submissions_share_height
    (generateHash : string -> string)
    (stringify : list Sim.Transaction -> string)
    (now1 now2 now3 now4 now5 now6 : Z)
    (c c1 c1' c2 c2' c3' : Sim.Component) (p1 p2 : Sim.Pending) :
  Sim.beginTransaction generateHash now1 now2 c = Some (c1, p1) ->
  Sim.state c1' = Sim.state c1 ->
  Sim.beginTransaction generateHash now3 now4 c1' = Some (c2, p2) ->
  Sim.state c2' = Sim.state c2 ->
  Sim.state c3' = Sim.state (Sim.commitBlock generateHash stringify p1 now5 c2') ->
  let st := Sim.state (Sim.commitBlock generateHash stringify p2 now6 c3') in
  exists b1 b2,
    Sim.blocks st = Sim.blocks (Sim.state c) ++ [b1; b2] /\
    Sim.height b1 = Sim.currentBlockHeight (Sim.state c) + 1 /\
    Sim.height b2 = Sim.height b1 /\
    Sim.previousHash b2 = Sim.previousHash b1 /\
    Sim.currentBlockHeight st = Sim.currentBlockHeight (Sim.state c) + 2.
Proof.
  intros Hb1 Hs1 Hb2 Hs2 Hs3. cbv zeta.
  destruct (beginTransaction_state generateHash now1 now2 c c1 p1 Hb1)
    as (Hc1 & Hbl1 & Hh1 & _).
  destruct (beginTransaction_state generateHash now3 now4 c1' c2 p2 Hb2)
    as (Hc2 & Hbl2 & Hh2 & _).
  exists (Sim.createBlock generateHash stringify (Sim.closed_state p1) now5
            [Sim.pending_transaction p1]),
         (Sim.createBlock generateHash stringify (Sim.closed_state p2) now6
            [Sim.pending_transaction p2]).
  cbn [Sim.commitBlock Sim.state Sim.setState Sim.blocks Sim.currentBlockHeight].
  rewrite Hs3.
  cbn [Sim.commitBlock Sim.state Sim.setState Sim.blocks Sim.currentBlockHeight].
  rewrite Hs2, Hbl2, Hh2, Hs1, Hbl1, Hh1, Hc1, Hc2, Hs1.
  cbn [Sim.createBlock Sim.height Sim.previousHash].
  rewrite Hbl1, Hh1, <- app_assoc.
  repeat split; try reflexivity; lia.
Qed.

Lemma overlapping_submissions_share_height_witness :
  let gh := Sim.sampleHash in
  let tx1 := Sim.mkTransaction (gh "1000") "org1" "org2" "Asset Transfer"
               1001 1 Sim.tx_pending in
  let tx2 := Sim.mkTransaction (gh "2000") "org2" "org1" "Asset Transfer"
               2001 1 Sim.tx_pending in
  let c1 := Sim.setNewTransaction (Sim.mkNewTransaction "" "" "Asset Transfer")
              (Sim.setState (Sim.mkSimulationState [] [tx1] [] [] 0)
                            Sim.readyComponent) in
  let c1' := Sim.setNewTransaction
               (Sim.mkNewTransaction "org2" "org1" "Asset Transfer") c1 in
  let c2 := Sim.setNewTransaction (Sim.mkNewTransaction "" "" "Asset Transfer")
              (Sim.setState (Sim.mkSimulationState [] [tx1; tx2] [] [] 0) c1') in
  let p1 := Sim.mkPending tx1 Sim.initialState in
  let p2 := Sim.mkPending tx2 (Sim.state c1) in
  let c3 := Sim.commitBlock gh Sim.sampleStringify p1 11000 c2 in
  let st := Sim.state (Sim.commitBlock gh Sim.sampleStringify p2 12000 c3) in
  exists b1 b2,
    Sim.blocks st = Sim.blocks (Sim.state Sim.readyComponent) ++ [b1; b2] /\
    Sim.height b1 = Sim.currentBlockHeight (Sim.state Sim.readyComponent) + 1 /\
    Sim.height b2 = Sim.height b1 /\
    Sim.previousHash b2 = Sim.previousHash b1 /\
    Sim.currentBlockHeight st
    = Sim.currentBlockHeight (Sim.state Sim.readyComponent) + 2.
Proof.
  intros gh tx1 tx2 c1 c1' c2 p1 p2 c3 st.
  exact (overlapping_submissions_share_height gh Sim.sampleStringify
           1000 1001 2000 2001 11000 12000
           Sim.readyComponent c1 c1' c2 c2 c3 p1 p2
           eq_refl eq_refl eq_refl eq_refl eq_refl).
Defined.

(** X15: a submission that is still being animated when the simulation is
    reset is not cancelled. Its block is appended to the emptied ledger:
    the ledger then holds that one block, whose height continues the
    ledger from before the reset, while the current height is 1 and the
    transaction list is empty, so the block's transaction is listed
    nowhere. *)
Theorem reset_does_not_cancel_commit
    (generateHash : string -> string)
    (stringify : list Sim.Transaction -> string)
    (now1 now2 now3 : Z) (c c1 c1' : Sim.Component) (p : Sim.Pending) :
  Sim.beginTransaction generateHash now1 now2 c = Some (c1, p) ->
  let st := Sim.state (Sim.commitBlock generateHash stringify p now3
                                       (Sim.resetSimulation c1')) in
  exists b,
    Sim.blocks st = [b] /\
    Sim.height b = Sim.currentBlockHeight (Sim.state c) + 1 /\
    Sim.transactions_of b = [Sim.pending_transaction p] /\
    Sim.transactions st = [] /\
    Sim.currentBlockHeight st = 1.
Proof.
  intros Hb. cbv zeta.
  destruct (beginTransaction_state generateHash now1 now2 c c1 p Hb)
    as (Hclosed & _).
  exists (Sim.createBlock generateHash stringify (Sim.closed_state p) now3
            [Sim.pending_transaction p]).
  cbn [Sim.commitBlock Sim.resetSimulation Sim.state Sim.setState
       Sim.setSimulationStatus Sim.setEdges Sim.setNodes Sim.blocks
       Sim.transactions Sim.currentBlockHeight Sim.initialState app map].
  rewrite Hclosed. repeat split.
Qed.

Lemma reset_does_not_cancel_commit_witness :
  let tx := Sim.mkTransaction (Sim.sampleHash "1000") "org1" "org2"
              "Asset Transfer" 1001 1 Sim.tx_pending in
  let c1 := Sim.setNewTransaction (Sim.mkNewTransaction "" "" "Asset Transfer")
              (Sim.setState (Sim.mkSimulationState [] [tx] [] [] 0)
                            Sim.readyComponent) in
  let st := Sim.state (Sim.commitBlock Sim.sampleHash Sim.sampleStringify
                         (Sim.mkPending tx Sim.initialState) 11000
                         (Sim.resetSimulation c1)) in
  exists b,
    Sim.blocks st = [b] /\
    Sim.height b = Sim.currentBlockHeight (Sim.state Sim.readyComponent) + 1 /\
    Sim.transactions_of b = [tx] /\
    Sim.transactions st = [] /\
    Sim.currentBlockHeight st = 1.
Proof.
  intros tx c1 st.
  exact (reset_does_not_cancel_commit Sim.sampleHash Sim.sampleStringify
           1000 1001 11000 Sim.readyComponent c1 c1
           (Sim.mkPending tx Sim.initialState) eq_refl).
Defined.

(* ------------------------------------------------------------------ *)
(** ** The generated documents during a session *)

(** X16: only Generate Configs writes the preview of the generated
    documents. Every other control leaves it as it is, also the ones that
    change the topology: the documents shown, and zipped by Download All,
    stay those of the topology at the time they were generated. *)
Theorem preview_written_by_generate_only
    (uuid : nat -> string)
    (generateYAMLConfigs : NetworkConfig -> Thrown + YAMLConfig)
    (validateNetworkConfig : NetworkConfig -> list ValidationResult)
    (e : Event) (s : State) (k : nat) :
  e <> GenerateConfigs ->
  yamlPreview (fst (handle uuid generateYAMLConfigs validateNetworkConfig e s k))
  = yamlPreview s.
Proof.
  intros Hne. destruct e; cbn [handle ret fst]; try reflexivity.
  - unfold checkConfiguration. cbv zeta.
    destruct (existsb isError _); [reflexivity|].
    destruct (0 <? _)%nat; reflexivity.
  - contradiction.
  - unfold downloadAll.
    destruct (yamlPreview s) eqn:E; [destruct zipped|]; exact E.
  - unfold applyTemplate, bind.
    destruct (mapM (templateOrganization uuid) _ k) as [os k1].
    destruct (arrayFrom _ (newOrderer uuid) k1) as [rs k2].
    reflexivity.
  - unfold addOrganization.
    destruct (negb (JS.truthy (JS.trim (newOrgName s)))); reflexivity.
  - unfold addPeer. destruct (find _ _); reflexivity.
  - unfold handleNodeClick.
    destruct (type =? "org")%string; [reflexivity|].
    destruct (type =? "orderer")%string; [reflexivity|].
    destruct (type =? "peer")%string; [| reflexivity].
    destruct (find _ _); reflexivity.
Qed.

Lemma preview_written_by_generate_only_witness :
  let s := fst (handle uuid0 (compile sampleRender)
                       Validator.validateNetworkConfig GenerateConfigs
                       (fst (applyTemplate uuid0 twoOrganizationRaft
                               initialState 0%nat)) 9%nat) in
  yamlPreview (fst (handle uuid0 (compile sampleRender)
                           Validator.validateNetworkConfig
                           (DeleteOrganization "uuid-0") s 9%nat))
  = yamlPreview s.
Proof.
  apply (preview_written_by_generate_only uuid0 (compile sampleRender)
           Validator.validateNetworkConfig (DeleteOrganization "uuid-0")).
  discriminate.
Defined.

(* ------------------------------------------------------------------ *)
(** ** Minting in document order *)

(** X17: applyTemplate draws exactly one identity for each organization,
    peer and orderer of the new topology, with no draw left unused: read
    organization by organization (the organization, then its peers) and
    then orderer by orderer, the identities of the result are the
    consecutive draws of the generator from the position the call started
    at, and the call ends at the position after the last of them. *)
Theorem applyTemplate_mints_in_order
    (uuid : nat -> string) (t : NetworkTemplate) (s : State) (k : nat) :
  let r := applyTemplate uuid t s k in
  identities (config (fst r))
  = map uuid (seq k (length (identities (config (fst r))))) /\
  snd r = (k + length (identities (config (fst r))))%nat.
Proof.
  cbv zeta. destruct (applyTemplate_draws uuid t s k) as (n & Hids & Hk).
  rewrite Hk, Hids, length_map, length_seq. split; reflexivity.
Qed.

(* ------------------------------------------------------------------ *)
(** ** Adding a peer when ids are distinct *)

Lemma map_other_ids (orgId : string) (f : Organization -> Organization)
                    (l : list Organization) :
  (forall o, In o l -> org_id o <> orgId) ->
  map (fun o => if (org_id o =? orgId)%string then f o else o) l = l.
Proof.
  intros H. rewrite <- (map_id l) at 2. apply map_ext_in. intros o Hin.
  apply H in Hin. apply String.eqb_neq in Hin. now rewrite Hin.
Qed.

(** X18: when organization ids are pairwise distinct, addPeer called with
    the id of an organization of the topology changes that organization
    only: in the organization list it is replaced, at its place, by an
    organization with the same fields and one more peer at the end of its
    peer list, whose ports are 7051+n, 5984+n and 7052+n for its n earlier
    peers and whose id is the identity drawn; the organizations before and
    after it, the orderers and the network-level fields are unchanged, and
    one identity is drawn. *)
Theorem addPeer_changes_one_organization
    (uuid : nat -> string) (s : State) (k : nat)
    (l1 l2 : list Organization) (o : Organization) :
  organizations (config s) = l1 ++ o :: l2 ->
  NoDup (orgIds (config s)) ->
  let n := Z.of_nat (length (peers o)) in
  let c' := config (fst (addPeer uuid (org_id o) s k)) in
  (exists o' p,
      organizations c' = l1 ++ o' :: l2 /\
      peers o' = peers o ++ [p] /\
      peer_id p = uuid k /\
      port p = 7051 + n /\ couchDBPort p = 5984 + n /\ chaincodePort p = 7052 + n /\
      peer_status p = pending /\
      org_id o' = org_id o /\ org_name o' = org_name o /\
      domain o' = domain o /\ mspID o' = mspID o /\ org_type o' = org_type o /\
      country o' = country o /\ state o' = state o /\ locality o' = locality o) /\
  orderers c' = orderers (config s) /\
  channelName c' = channelName (config s) /\
  consortium c' = consortium (config s) /\
  networkVersion c' = networkVersion (config s) /\
  template c' = template (config s) /\
  stateDatabase c' = stateDatabase (config s) /\
  snd (addPeer uuid (org_id o) s k) = S k.
Proof.
  intros Horgs Hn. cbv zeta. unfold orgIds in Hn. rewrite Horgs in Hn.
  rewrite map_app in Hn. cbn [map] in Hn.
  assert (H1 : forall a, In a l1 -> org_id a <> org_id o).
  { intros a Ha E. apply (NoDup_app_disjoint _ _ (org_id a) Hn).
    - now apply in_map.
    - left. now symmetry. }
  assert (H2 : forall a, In a l2 -> org_id a <> org_id o).
  { intros a Ha E. apply NoDup_app_remove_l in Hn.
    inversion Hn as [|? ? Hnotin _]; subst. apply Hnotin.
    rewrite <- E. now apply in_map. }
  assert (Hfind : find (fun a => (org_id a =? org_id o)%string)
                       (organizations (config s)) = Some o).
  { rewrite Horgs. clear Horgs Hn H2. induction l1 as [|a l1 IH]; cbn [app find].
    - now rewrite String.eqb_refl.
    - assert (Ha : org_id a <> org_id o) by (apply H1; now left).
      apply String.eqb_neq in Ha. rewrite Ha. apply IH.
      intros b Hb. apply H1. now right. }
  unfold addPeer. rewrite Hfind.
  cbn [bind newPeer randomUUID ret fst snd config showNotification
       setNotification updateConfig setConfig withOrganizations organizations
       orderers channelName consortium networkVersion template stateDatabase].
  split; [| repeat split].
  eexists. eexists. split.
  - rewrite Horgs, map_app. cbn [map]. rewrite String.eqb_refl.
    rewrite (map_other_ids (org_id o) _ l1 H1), (map_other_ids (org_id o) _ l2 H2).
    reflexivity.
  - repeat split.
Qed.

Lemma addPeer_changes_one_organization_witness :
  let s := fst (applyTemplate uuid0 twoOrganizationRaft initialState 0%nat) in
  let o := nth 1 (organizations (config s)) legacyOrg in
  let n := Z.of_nat (length (peers o)) in
  let c' := config (fst (addPeer uuid0 (org_id o) s 9%nat)) in
  (exists o' p,
      organizations c' = firstn 1 (organizations (config s)) ++ o' :: [] /\
      peers o' = peers o ++ [p] /\
      peer_id p = uuid0 9 /\
      port p = 7051 + n /\ couchDBPort p = 5984 + n /\ chaincodePort p = 7052 + n /\
      peer_status p = pending /\
      org_id o' = org_id o /\ org_name o' = org_name o /\
      domain o' = domain o /\ mspID o' = mspID o /\ org_type o' = org_type o /\
      country o' = country o /\ state o' = state o /\ locality o' = locality o) /\
  orderers c' = orderers (config s) /\
  channelName c' = channelName (config s) /\
  consortium c' = consortium (config s) /\
  networkVersion c' = networkVersion (config s) /\
  template c' = template (config s) /\
  stateDatabase c' = stateDatabase (config s) /\
  snd (addPeer uuid0 (org_id o) s 9%nat) = 10%nat.
Proof.
  intros s o.
  apply (addPeer_changes_one_organization uuid0 s 9%nat
           (firstn 1 (organizations (config s))) [] o).
  - reflexivity.
  - cbn. constructor; [intros [H | []]; discriminate H |].
    constructor; [intros [] | constructor].
Defined.

(* ------------------------------------------------------------------ *)
(** ** The derived domain *)

Lemma lowerUnit_idempotent (c : ascii) :
  JS.lowerUnit (JS.lowerUnit c) = JS.lowerUnit c.
Proof.
  destruct c as [[] [] [] [] [] [] [] []]; vm_compute; reflexivity.
Qed.

Lemma toLowerCase_idempotent (s : string) :
  JS.toLowerCase (JS.toLowerCase s) = JS.toLowerCase s.
Proof.
  induction s as [|c s IH]; simpl; [reflexivity|].
  now rewrite lowerUnit_idempotent, IH.
Qed.

(** Lower-casing a stem again changes nothing. *)
Lemma stem_lowercased (s : string) :
  JS.toLowerCase (JS.stripSpaces (JS.toLowerCase s))
  = JS.stripSpaces (JS.toLowerCase s).
Proof.
  induction s as [|c s IH]; simpl; [reflexivity|].
  destruct (JS.isWhiteSpace (JS.lowerUnit c)); simpl; [exact IH|].
  now rewrite lowerUnit_idempotent, IH.
Qed.

(** X19: for every organization created by addOrganization or by
    instantiating a preset, the domain is the lower-cased name without
    white space, followed by .example.com; that stem holds no white space
    and no upper-case letter, and lower-casing it again changes nothing. *)
Theorem domain_is_lowercased_stem (uuid : nat -> string) (o : Organization) :
  createdByDashboard uuid o ->
  let stem := JS.stripSpaces (JS.toLowerCase (org_name o)) in
  domain o = (stem ++ ".example.com")%string /\
  noWhiteSpace stem = true /\
  noUpperCase stem = true /\
  JS.toLowerCase stem = stem.
Proof.
  intros Hc. cbv zeta. split; [| split; [| split]].
  - destruct Hc as [(s & k & Hname & Horgs) | (t & s & k & Hin)].
    + unfold addOrganization in Horgs. rewrite Hname in Horgs. simpl in Horgs.
      apply app_inj_tail in Horgs. destruct Horgs as [_ <-]. simpl.
      now rewrite JSFacts.stripSpaces_toLowerCase_trim.
    + rewrite applyTemplate_config in Hin. simpl in Hin.
      apply mapM_In in Hin. destruct Hin as (a & k' & _ & ->).
      destruct (templateOrganization_fields uuid a k') as (_ & Hn & Hd & _).
      now rewrite Hd, Hn.
  - apply JSFacts.stripSpaces_noWhiteSpace.
  - apply stem_noUpperCase.
  - apply stem_lowercased.
Qed.

Lemma domain_is_lowercased_stem_witness :
  let o := mkOrganization "uuid-0" "Example Org" "exampleorg.example.com"
             "ExampleOrgMSP" [] None "US" "California" "San Francisco" in
  let stem := JS.stripSpaces (JS.toLowerCase (org_name o)) in
  domain o = (stem ++ ".example.com")%string /\
  noWhiteSpace stem = true /\
  noUpperCase stem = true /\
  JS.toLowerCase stem = stem.
Proof.
  apply (domain_is_lowercased_stem uuid0).
  left. exists (setNewOrgName " Example Org " initialState), 0%nat.
  split; reflexivity.
Defined.
